(** * The LSAT practice tool (tool.py): classifier, question bank, exam composer

    A shallow embedding of the decision logic of [tool.py] and the
    properties of its specification.

    Conventions of the embedding.
    - A Python [str] is a Rocq [string], one [ascii] per code point; the
      model covers the code points below 256 (ASCII and Latin-1), on which
      [str.lower] maps one code point to one code point.
    - A Python [int] is a [Z]; the result of [len] is a [nat].
    - A dict whose iteration order the code relies on is an association
      list in insertion order.
    - A record of the bank, the dict [{"text": .., "type": .., "source": ..}],
      is a [question].
    - An uncaught exception is the [Raise] outcome of a computation.
    - The global generator of the [random] module is a state from which
      [randbelow] draws. [random.sample] and [random.shuffle] are library
      code: the first is modelled by selection without replacement (each
      draw takes one item out of the pool), the second by the exchange loop
      of Fisher and Yates, both over draws of [randbelow].
    - [json.dump] and [json.load] are library code: the first is modelled by
      the text it writes for a list of records, the second by the scanner
      of the [json] module, with the two limits of the interpreter that
      make it raise something else than [JSONDecodeError]. The file of the
      store is modelled by the text it holds. *)

From Stdlib Require Import ZArith Ascii String DecimalString Permutation Lia.
From stdpp Require Import base list strings gmap.

Local Open Scope Z_scope.

(** ** Python strings *)

Module PyStr.

Definition code (c : ascii) : N := N_of_ascii c.

(** [str.lower] on one code point below 256: A-Z and the Latin-1 capitals
    (U+00C0..U+00DE without the multiplication sign U+00D7) move up by 32. *)
Definition lower_char (c : ascii) : ascii :=
  let n := code c in
  if ((65 <=? n) && (n <=? 90))%N
     || ((192 <=? n) && (n <=? 222) && negb (n =? 215))%N
  then ascii_of_N (n + 32) else c.

Fixpoint lower (s : string) : string :=
  match s with
  | EmptyString => EmptyString
  | String c s' => String (lower_char c) (lower s')
  end.

(** [str.isspace] on one code point below 256. *)
Definition is_space (c : ascii) : bool :=
  let n := code c in
  (((9 <=? n) && (n <=? 13)) || ((28 <=? n) && (n <=? 32))
   || (n =? 133) || (n =? 160))%N.

Fixpoint all_space (s : string) : bool :=
  match s with
  | EmptyString => true
  | String c s' => is_space c && all_space s'
  end.

Fixpoint lstrip (s : string) : string :=
  match s with
  | EmptyString => EmptyString
  | String c s' => if is_space c then lstrip s' else s
  end.

Fixpoint rstrip (s : string) : string :=
  match s with
  | EmptyString => EmptyString
  | String c s' =>
      match rstrip s' with
      | EmptyString => if is_space c then EmptyString else String c EmptyString
      | r => String c r
      end
  end.

(** [s.strip()] *)
Definition strip (s : string) : string := rstrip (lstrip s).

(** [s.startswith(p)] *)
Fixpoint starts_with (p s : string) : bool :=
  match p, s with
  | EmptyString, _ => true
  | String _ _, EmptyString => false
  | String a p', String b s' => if Ascii.eqb a b then starts_with p' s' else false
  end.

(** [kw in s]: [kw] occurs in [s] at some position. *)
Fixpoint contains (kw s : string) : bool :=
  starts_with kw s ||
  match s with
  | EmptyString => false
  | String _ s' => contains kw s'
  end.

(** What [kw in s] means: [s] is [kw] with something before and after. *)
Definition occurs_in (kw s : string) : Prop :=
  exists a b : string, s = a +:+ kw +:+ b.

(** [str(n)] for an int, and for a length. *)
Definition str_of_Z (z : Z) : string := NilEmpty.string_of_int (Z.to_int z).
Definition str_of_nat (n : nat) : string := NilEmpty.string_of_uint (Nat.to_uint n).

(** [sep.join(parts)] *)
Fixpoint join (sep : string) (parts : list string) : string :=
  match parts with
  | [] => EmptyString
  | [p] => p
  | p :: rest => p +:+ sep +:+ join sep rest
  end.

End PyStr.

(** ** Configuration: the keyword table *)

Definition keyword_table : Type := list (string * list string).

Definition LR_types : keyword_table :=
  [ ("Strengthen", ["strengthen"; "support"]);
    ("Weaken", ["weaken"; "undermine"]);
    ("Assumption", ["assume"; "assumption"]);
    ("Flaw", ["flaw"; "error"; "mistake"]);
    ("Inference", ["infer"; "inference"; "follows"]);
    ("Principle", ["principle"]);
    ("Parallel Reasoning", ["parallel"]);
    ("Paradox", ["paradox"]);
    ("Method of Reasoning", ["method of reasoning"; "method"]) ].

Definition RC_types : keyword_table :=
  [ ("Main Point", ["main point"; "primary purpose"]);
    ("Author's Attitude", ["author's attitude"; "tone"]);
    ("Inference", ["infer"; "inference"]);
    ("Function", ["function of"]);
    ("Detail", ["detail"; "mention"]);
    ("Analogy", ["analogy"]);
    ("Structure", ["structure"; "organized"]) ].

Definition QUESTION_TYPES : list (string * keyword_table) :=
  [ ("LR", LR_types); ("RC", RC_types) ].

Definition DEFAULT_STRUCTURE : list (string * Z) := [ ("LR", 25); ("RC", 27) ].

Definition newline : string := String (ascii_of_nat 10) EmptyString.

(** ** Outcomes of a call *)

Inductive exn : Type :=
| KeyError (key : string)
| ValueError
| ZeroDivisionError
| UnicodeDecodeError
| JSONDecodeError
| RecursionError.

Inductive outcome (A : Type) : Type :=
| Ok (a : A)
| Raise (e : exn).
Arguments Ok {A} a.
Arguments Raise {A} e.

(** [d[key]] on a dict kept as an association list. *)
Fixpoint getitem {V : Type} (d : list (string * V)) (key : string) : outcome V :=
  match d with
  | [] => Raise (KeyError key)
  | (k, v) :: d' => if String.eqb k key then Ok v else getitem d' key
  end.

(** ** The classifier *)

(** [any(kw in lc_text for kw in keywords)] *)
Definition any_keyword (keywords : list string) (lc_text : string) : bool :=
  existsb (fun kw => PyStr.contains kw lc_text) keywords.

(** One [for qtype, keywords in ... .items()] loop of [classify_question]:
    the label returned from inside the loop, or [None] when the loop ends. *)
Fixpoint scan_types (items : keyword_table) (lc_text : string) : option string :=
  match items with
  | [] => None
  | (qtype, keywords) :: rest =>
      if any_keyword keywords lc_text then Some qtype else scan_types rest lc_text
  end.

Definition classify_question (text : string) : string :=
  let lc_text := PyStr.lower text in
  match scan_types LR_types lc_text with
  | Some qtype => qtype
  | None =>
      match scan_types RC_types lc_text with
      | Some qtype => qtype
      | None => "Unknown"
      end
  end.

(** A category matches when one of its keywords occurs in the text. *)
Definition category_matches (keywords : list string) (lc_text : string) : Prop :=
  exists kw : string, kw ∈ keywords /\ PyStr.occurs_in kw lc_text.

(** The whole taxonomy in the order [classify_question] walks it. *)
Definition ordered_taxonomy : keyword_table := LR_types ++ RC_types.

(** ** The random source

    The generator behind [random.sample] and [random.shuffle]:
    [randbelow n] returns a number below [n] and the next generator state. *)

Class RandomSource (G : Type) : Type := {
  randbelow : nat -> G -> nat * G;
  randbelow_lt : forall (n : nat) (g : G), (0 < n)%nat -> (fst (randbelow n g) < n)%nat
}.

(** A generator that replays a script of draws (reduced below the bound),
    and draws 0 once the script is over. *)
Definition tape_randbelow (n : nat) (g : list nat) : nat * list nat :=
  match g with
  | [] => (0%nat, [])
  | d :: g' => (Nat.modulo d n, g')
  end.

#[export] Instance tape_source : RandomSource (list nat).
Proof.
  refine {| randbelow := tape_randbelow |}.
  intros n [|d g'] Hn; simpl; [exact Hn|].
  apply Nat.mod_upper_bound. lia.
Defined.

(** ** Question records *)

Record question : Type := {
  text : string;
  type : string;
  source : string
}.

#[export] Instance question_eq_dec : EqDecision question.
Proof. solve_decision. Defined.

(** A record as ingestion stores it for a text file on inference. *)
Definition inference_question : question :=
  {| text := "What can be inferred from the passage?";
     type := "Inference";
     source := "q1.txt" |}.

(** Banks for examples: [per_category] records of each LR type. *)
Definition sample_record (qtype : string) (i : nat) : question :=
  {| text := "Question " +:+ PyStr.str_of_nat i +:+ " on " +:+ qtype;
     type := qtype;
     source := "scan" +:+ PyStr.str_of_nat i +:+ ".txt" |}.

Definition LR_bank (per_category : nat) : list question :=
  flat_map (fun qtype => map (sample_record qtype) (seq 1 per_category))
    (map fst LR_types).

(** ** Computations of the composer: generator state, log, exceptions *)

Section Composer.
Context {G : Type} `{RandomSource G}.

Record world : Type := {
  gen : G;
  log : list string
}.

Definition M (A : Type) : Type := world -> outcome A * world.

#[export] Instance M_ret : MRet M := fun A a w => (Ok a, w).

#[export] Instance M_bind : MBind M := fun A B f m w =>
  match m w with
  | (Ok a, w') => f a w'
  | (Raise e, w') => (Raise e, w')
  end.

Definition raise {A : Type} (e : exn) : M A := fun w => (Raise e, w).

Definition lift {A : Type} (o : outcome A) : M A := fun w => (o, w).

(** [logging.warning(msg)] *)
Definition logging_warning (msg : string) : M unit :=
  fun w => (Ok tt, {| gen := gen w; log := log w ++ [msg] |}).

Definition random_below (n : nat) : M nat :=
  fun w => let (j, g') := randbelow n (gen w) in
           (Ok j, {| gen := g'; log := log w |}).

(** [k] draws without replacement from [pool]: each draw picks a position
    of the pool and takes the item there out of it. The properties below
    use no more of [random.sample] than this; the order in which the library keeps the
    rest of its pool is not modelled. *)
Fixpoint draw_sample {A : Type} (pool : list A) (k : nat) : M (list A) :=
  match k with
  | O => mret []
  | S k' =>
      j ← random_below (length pool);
      match pool !! j with
      | Some x => rest ← draw_sample (delete j pool) k'; mret (x :: rest)
      | None => mret []
      end
  end.

(** [random.sample(population, k)] *)
Definition random_sample {A : Type} (population : list A) (k : Z) : M (list A) :=
  if (k <? 0) || (Z.of_nat (length population) <? k)
  then raise ValueError
  else draw_sample population (Z.to_nat k).

(** [x[i], x[j] = x[j], x[i]] *)
Definition exchange {A : Type} (i j : nat) (x : list A) : list A :=
  match x !! i, x !! j with
  | Some a, Some b => <[j:=a]> (<[i:=b]> x)
  | _, _ => x
  end.

(** The loop of [random.shuffle] over [i = n, n-1, ..., 1]. *)
Fixpoint shuffle_down {A : Type} (n : nat) (x : list A) : M (list A) :=
  match n with
  | O => mret x
  | S n' => j ← random_below (S n); shuffle_down n' (exchange n j x)
  end.

(** [random.shuffle(x)] *)
Definition random_shuffle {A : Type} (x : list A) : M (list A) :=
  shuffle_down (length x - 1) x.

(** ** The exam composer *)

(** [counts[t] += 1] *)
Definition increment (t : string) (counts : list (string * Z)) : list (string * Z) :=
  map (fun kv => if String.eqb (fst kv) t then (fst kv, snd kv + 1) else kv) counts.

(** Lines 95-98: the slots of each category of a section. *)
Definition allocate (types : list string) (total : Z) : M (list (string * Z)) :=
  if Nat.eqb (length types) 0 then raise ZeroDivisionError
  else
    let base := total / Z.of_nat (length types) in
    let rem := total mod Z.of_nat (length types) in
    let counts := map (fun t => (t, base)) types in
    extra ← random_sample types rem;
    mret (foldl (fun counts t => increment t counts) counts extra).

Definition shortage_message (qtype : string) (cnt : Z) (available : nat) : string :=
  "Not enough '" +:+ qtype +:+ "' questions: needed " +:+ PyStr.str_of_Z cnt
  +:+ ", available " +:+ PyStr.str_of_nat available.

Definition candidates_of (section_questions : list question) (qtype : string) : list question :=
  filter (fun q => type q = qtype) section_questions.

(** Lines 100-103: the records taken for one category. *)
Definition pick_category (section_questions : list question) (item : string * Z) : M (list question) :=
  let (qtype, cnt) := item in
  let candidates := candidates_of section_questions qtype in
  _ ← (if Z.of_nat (length candidates) <? cnt
       then logging_warning (shortage_message qtype cnt (length candidates))
       else mret tt);
  random_sample candidates (Z.min cnt (Z.of_nat (length candidates))).

(** Lines 99-103: the loop over [counts.items()], extending [selected]. *)
Fixpoint pick_all (section_questions : list question) (counts : list (string * Z))
    (selected : list question) : M (list question) :=
  match counts with
  | [] => mret selected
  | item :: rest =>
      picked ← pick_category section_questions item;
      pick_all section_questions rest (selected ++ picked)
  end.

Definition section_types (section : string) : outcome (list string) :=
  match getitem QUESTION_TYPES section with
  | Ok table => Ok (map fst table)
  | Raise e => Raise e
  end.

Definition eligible (types : list string) (bank : list question) : list question :=
  filter (fun q => type q ∈ types) bank.

(** Lines 94-103, once [types] is known. *)
Definition select_types (types : list string) (bank : list question)
    (selected : list question) (total : Z) : M (list question) :=
  let section_questions := eligible types bank in
  counts ← allocate types total;
  pick_all section_questions counts selected.

(** Lines 93-103: the body of the loop over [structure.items()]. *)
Definition select_section (bank : list question) (selected : list question)
    (item : string * Z) : M (list question) :=
  let (section, total) := item in
  types ← lift (section_types section);
  select_types types bank selected total.

(** Lines 92-103. *)
Fixpoint select_all (bank : list question) (structure : list (string * Z))
    (selected : list question) : M (list question) :=
  match structure with
  | [] => mret selected
  | item :: rest =>
      selected' ← select_section bank selected item;
      select_all bank rest selected'
  end.

(** Lines 91-104: the selected records in their final order. *)
Definition compose (bank : list question) (structure : list (string * Z)) : M (list question) :=
  selected ← select_all bank structure [];
  random_shuffle selected.

(** Line 107: one numbered item. *)
Definition render_item (i : nat) (q : question) : string :=
  "Q" +:+ PyStr.str_of_nat i +:+ " [" +:+ type q +:+ "] (" +:+ source q +:+ "):"
  +:+ newline +:+ PyStr.strip (text q) +:+ newline.

(** Lines 105-108. *)
Definition render (selected : list question) : string :=
  PyStr.join newline (imap (fun i q => render_item (S i) q) selected).

Definition generate_exam_text (bank : list question) (structure : list (string * Z)) : M string :=
  selected ← compose bank structure;
  mret (render selected).

(** [returns m w P]: run from [w], [m] returns normally, and the value and
    the world it leaves satisfy [P]. *)
Definition returns {A : Type} (m : M A) (w : world) (P : A -> world -> Prop) : Prop :=
  exists (a : A) (w' : world), m w = (Ok a, w') /\ P a w'.

End Composer.

Arguments world G : clear implicits.
Arguments M G A : clear implicits.

(** A world whose generator replays [script], with an empty log. *)
Definition scripted (script : list nat) : world (list nat) :=
  {| gen := script; log := [] |}.

(** A script of draws for a sample from [n] items: each draw is below the
    number of items left. *)
Fixpoint in_range (n : nat) (script : list nat) : Prop :=
  match script with
  | [] => True
  | j :: rest => (j < n)%nat /\ in_range (n - 1) rest
  end.

(** The slots handed out by an allocation, and the records of one type. *)
Definition total_slots (counts : list (string * Z)) : Z :=
  foldr Z.add 0 (map snd counts).

Definition count_type (qtype : string) (qs : list question) : nat :=
  length (filter (fun q => type q = qtype) qs).

(** A category is short when it has fewer candidates than slots. *)
Definition short (section_questions : list question) (item : string * Z) : Prop :=
  Z.of_nat (length (candidates_of section_questions (fst item))) < snd item.

(** The warnings of the loop over [counts.items()]: one for each short
    category, in the order of the categories. *)
Definition shortage_warnings (section_questions : list question)
    (counts : list (string * Z)) : list string :=
  flat_map (fun item =>
    if Z.of_nat (length (candidates_of section_questions (fst item))) <? snd item
    then [shortage_message (fst item) (snd item)
            (length (candidates_of section_questions (fst item)))]
    else []) counts.

(** What is taken for one category: records of that type, at distinct
    positions of the candidate list, as many as allocated or as many as
    there are. *)
Definition taken_for (section_questions : list question) (item : string * Z)
    (picked : list question) : Prop :=
  picked ⊆+ candidates_of section_questions (fst item)
  /\ Z.of_nat (length picked)
     = Z.min (snd item) (Z.of_nat (length (candidates_of section_questions (fst item)))).

(** The counts of a section: the base count for every category and one
    more for the categories of [extra]. *)
Definition allocation (types : list string) (total : Z) (extra : list string)
    (counts : list (string * Z)) : Prop :=
  NoDup extra /\ extra ⊆+ types
  /\ Z.of_nat (length extra) = total mod Z.of_nat (length types)
  /\ counts = map (fun t => (t, if decide (t ∈ extra)
                               then total / Z.of_nat (length types) + 1
                               else total / Z.of_nat (length types))) types.

(** One round of the loop over [structure.items()]: the records it adds to
    [selected] and the warnings it logs. *)
Definition section_run (bank : list question) (item : string * Z)
    (chunk : list question) (warnings : list string) : Prop :=
  exists (types extra : list string) (counts : list (string * Z))
         (picks : list (list question)),
    section_types (fst item) = Ok types
    /\ allocation types (snd item) extra counts
    /\ Forall2 (taken_for (eligible types bank)) counts picks
    /\ chunk = concat picks
    /\ warnings = shortage_warnings (eligible types bank) counts.

(** A structure that names sections of the taxonomy and asks for
    non-negative counts. *)
Definition well_formed (structure : list (string * Z)) : Prop :=
  Forall (fun item => (fst item = "LR" \/ fst item = "RC") /\ 0 <= snd item) structure.

(** ** The interpreter

    Two limits of the interpreter reach [json.load]. The scanner enters
    every list and every object through a recursive call and raises
    [RecursionError] when the recursion limit leaves no room for one more:
    [recursion_room] is the number of containers that can be open at once
    when the start-up of lines 51-59 runs. [int] refuses a literal of more
    than [int_max_str_digits] digits with a plain [ValueError]; 0 stands
    for no limit, as in [sys.set_int_max_str_digits], and a literal of 640
    digits or fewer is never refused. The start-up runs at module level,
    after imports that went deeper than the two levels of a list of
    records. *)
Class Interpreter : Type := {
  recursion_room : nat;
  int_max_str_digits : nat;
  recursion_room_records : (2 <= recursion_room)%nat
}.

(** ** JSON text: [json.dump] and [json.load]

    The store is a text file. [json.load] is modelled as the
    recursive-descent scanner of the [json] module over the text of the
    file: what it raises on text that is not JSON is [JSONDecodeError],
    on a list or object nested deeper than the interpreter has room for
    [RecursionError], on an integer literal over the digit limit
    [ValueError], whichever the scan meets first. The scanner recurses on
    fuel; [loads] gives it more than twice the length of the text, which
    is never used up (lemma [loads_fuel_irrelevant]). Strings of a JSON
    value are lists of code points, since an escape [\uXXXX] can name any
    of them. *)

Module Json.

#[warnings="-register-all"]
Inductive value : Type :=
| Null
| Bool (b : bool)
| Int (z : Z)
| Float (lexeme : string)
| Str (s : list N)
| Arr (items : list value)
| Obj (members : list (list N * value)).

Fixpoint codes (s : string) : list N :=
  match s with
  | EmptyString => []
  | String c s' => PyStr.code c :: codes s'
  end.

Fixpoint of_codes (l : list N) : option string :=
  match l with
  | [] => Some EmptyString
  | n :: l' =>
      if (n <? 256)%N
      then match of_codes l' with
           | Some s => Some (String (ascii_of_N n) s)
           | None => None
           end
      else None
  end.

(** *** Encoding, as [json.dump(bank, f, indent=2, ensure_ascii=False)] *)

Definition hex_char (n : N) : ascii :=
  if (n <? 10)%N then ascii_of_N (48 + n) else ascii_of_N (87 + n).

Definition quote : string := String (ascii_of_nat 34) EmptyString.

(** The replacement of one character inside a string literal. *)
Definition escape_char (c : ascii) : string :=
  let n := PyStr.code c in
  if (n =? 34)%N then String (ascii_of_nat 92) quote
  else if (n =? 92)%N then "\\"
  else if (n =? 10)%N then "\n"
  else if (n =? 13)%N then "\r"
  else if (n =? 9)%N then "\t"
  else if (n =? 8)%N then "\b"
  else if (n =? 12)%N then "\f"
  else if (n <? 32)%N
       then "\u00" +:+ String (hex_char (n / 16)) (String (hex_char (n mod 16)) EmptyString)
  else String c EmptyString.

Fixpoint escape (s : string) : string :=
  match s with
  | EmptyString => EmptyString
  | String c s' => escape_char c +:+ escape s'
  end.

Definition dump_str (s : string) : string := quote +:+ escape s +:+ quote.

(** One record, as an item of the top-level list (one level of indent). *)
Definition dump_record (q : question) : string :=
  "{" +:+ newline +:+ "    " +:+ dump_str "text" +:+ ": " +:+ dump_str (text q)
  +:+ "," +:+ newline +:+ "    " +:+ dump_str "type" +:+ ": " +:+ dump_str (type q)
  +:+ "," +:+ newline +:+ "    " +:+ dump_str "source" +:+ ": " +:+ dump_str (source q)
  +:+ newline +:+ "  }".

Fixpoint dump_items (q : question) (rest : list question) : string :=
  match rest with
  | [] => dump_record q
  | q' :: rest' => dump_record q +:+ "," +:+ newline +:+ "  " +:+ dump_items q' rest'
  end.

Definition dumps (bank : list question) : string :=
  match bank with
  | [] => "[" +:+ "]"
  | q :: rest => "[" +:+ newline +:+ "  " +:+ dump_items q rest +:+ newline +:+ "]"
  end.

(** The Python value that a record is. *)
Definition record_value (q : question) : value :=
  Obj [ (codes "text", Str (codes (text q)));
        (codes "type", Str (codes (type q)));
        (codes "source", Str (codes (source q))) ].

Definition bank_value (bank : list question) : value := Arr (map record_value bank).

(** *** Decoding *)

Definition is_ws (c : ascii) : bool :=
  let n := PyStr.code c in
  ((n =? 32) || (n =? 9) || (n =? 10) || (n =? 13))%N.

Fixpoint skip_ws (s : string) : string :=
  match s with
  | EmptyString => EmptyString
  | String c s' => if is_ws c then skip_ws s' else s
  end.

Definition hex_value (c : ascii) : option N :=
  let n := PyStr.code c in
  if ((48 <=? n) && (n <=? 57))%N then Some (n - 48)%N
  else if ((65 <=? n) && (n <=? 70))%N then Some (n - 55)%N
  else if ((97 <=? n) && (n <=? 102))%N then Some (n - 87)%N
  else None.

Definition hex4 (a b c d : ascii) : option N :=
  match hex_value a, hex_value b, hex_value c, hex_value d with
  | Some x, Some y, Some z, Some t => Some (((x * 16 + y) * 16 + z) * 16 + t)%N
  | _, _, _, _ => None
  end.

Definition simple_escape (e : ascii) : option N :=
  let n := PyStr.code e in
  if (n =? 34)%N then Some 34%N        (* quote *)
  else if (n =? 92)%N then Some 92%N   (* backslash *)
  else if (n =? 47)%N then Some 47%N   (* slash *)
  else if (n =? 98)%N then Some 8%N    (* b *)
  else if (n =? 102)%N then Some 12%N  (* f *)
  else if (n =? 110)%N then Some 10%N  (* n *)
  else if (n =? 114)%N then Some 13%N  (* r *)
  else if (n =? 116)%N then Some 9%N   (* t *)
  else None.

Definition is_high_surrogate (u : N) : bool := ((55296 <=? u) && (u <=? 56319))%N.
Definition is_low_surrogate (u : N) : bool := ((56320 <=? u) && (u <=? 57343))%N.
Definition join_surrogates (u u2 : N) : N :=
  (65536 + ((u - 55296) * 1024 + (u2 - 56320)))%N.

(** [scanstring], from the character after the opening quote: the decoded
    string and the text after the closing quote. *)
Fixpoint scan_string (s : string) (acc : list N) : option (list N * string) :=
  match s with
  | EmptyString => None
  | String c rest =>
      if (PyStr.code c =? 34)%N then Some (acc, rest)
      else if (PyStr.code c =? 92)%N then
        match rest with
        | EmptyString => None
        | String e rest1 =>
            if (PyStr.code e =? 117)%N then
              match rest1 with
              | String a (String b (String c' (String d rest2))) =>
                  match hex4 a b c' d with
                  | None => None
                  | Some u =>
                      if is_high_surrogate u then
                        match rest2 with
                        | String bs (String lu (String a2 (String b2 (String c2
                            (String d2 rest3))))) =>
                            if (PyStr.code bs =? 92)%N && (PyStr.code lu =? 117)%N
                            then match hex4 a2 b2 c2 d2 with
                                 | None => None
                                 | Some u2 =>
                                     if is_low_surrogate u2
                                     then scan_string rest3
                                            (acc ++ [join_surrogates u u2])
                                     else scan_string rest2 (acc ++ [u])
                                 end
                            else scan_string rest2 (acc ++ [u])
                        | _ => scan_string rest2 (acc ++ [u])
                        end
                      else scan_string rest2 (acc ++ [u])
                  end
              | _ => None
              end
            else match simple_escape e with
                 | Some n => scan_string rest1 (acc ++ [n])
                 | None => None
                 end
        end
      else if (PyStr.code c <? 32)%N then None
      else scan_string rest (acc ++ [PyStr.code c])
  end.

Definition is_digit (c : ascii) : bool :=
  ((48 <=? PyStr.code c) && (PyStr.code c <=? 57))%N.

(** The longest run of digits at the head of [s], and what follows. *)
Fixpoint span_digits (s : string) : string * string :=
  match s with
  | EmptyString => (EmptyString, EmptyString)
  | String c s' =>
      if is_digit c
      then let (ds, rest) := span_digits s' in (String c ds, rest)
      else (EmptyString, s)
  end.

Fixpoint digits_value (ds : string) (acc : Z) : Z :=
  match ds with
  | EmptyString => acc
  | String c ds' => digits_value ds' (acc * 10 + Z.of_N (PyStr.code c - 48))
  end.

Section Scanner.
Context `{Interpreter}.

(** [int(lexeme)] for the sign and the digits of an integer literal. *)
Definition int_of_literal (sign int_part : string) : outcome value :=
  if (640 <? String.length int_part)%nat && (0 <? int_max_str_digits)%nat
     && (int_max_str_digits <? String.length int_part)%nat
  then Raise ValueError
  else let magnitude := digits_value int_part 0 in
       Ok (Int (match sign with EmptyString => magnitude | _ => - magnitude end)).

(** [NUMBER_RE]: integer part, optional fraction, optional exponent; and
    the conversion of what matched. *)
Definition scan_number (s : string) : option (outcome value * string) :=
  let (sign, s1) :=
    match s with
    | String c r => if (PyStr.code c =? 45)%N then ("-", r) else (EmptyString, s)
    | EmptyString => (EmptyString, s)
    end in
  let integer :=
    match s1 with
    | EmptyString => None
    | String c r =>
        if (PyStr.code c =? 48)%N then Some (String c EmptyString, r)
        else if is_digit c
             then let (ds, r') := span_digits r in Some (String c ds, r')
             else None
    end in
  match integer with
  | None => None
  | Some (int_part, s2) =>
      let (frac, s3) :=
        match s2 with
        | String c r =>
            if (PyStr.code c =? 46)%N
            then match span_digits r with
                 | (EmptyString, _) => (EmptyString, s2)
                 | (ds, r') => (String c ds, r')
                 end
            else (EmptyString, s2)
        | EmptyString => (EmptyString, s2)
        end in
      let (exp, s4) :=
        match s3 with
        | String c r =>
            if ((PyStr.code c =? 101) || (PyStr.code c =? 69))%N
            then
              let (sgn, r1) :=
                match r with
                | String c' r' =>
                    if ((PyStr.code c' =? 43) || (PyStr.code c' =? 45))%N
                    then (String c' EmptyString, r') else (EmptyString, r)
                | EmptyString => (EmptyString, r)
                end in
              match span_digits r1 with
              | (EmptyString, _) => (EmptyString, s3)
              | (ds, r') => (String c (sgn +:+ ds), r')
              end
            else (EmptyString, s3)
        | EmptyString => (EmptyString, s3)
        end in
      match frac, exp with
      | EmptyString, EmptyString => Some (int_of_literal sign int_part, s4)
      | _, _ => Some (Ok (Float (sign +:+ int_part +:+ frac +:+ exp)), s4)
      end
  end.

(** [s] without the prefix [p], when it starts with [p]. *)
Fixpoint strip_prefix (p s : string) : option string :=
  match p, s with
  | EmptyString, _ => Some s
  | String a p', String b s' => if Ascii.eqb a b then strip_prefix p' s' else None
  | String _ _, EmptyString => None
  end.

(** The literals of [scan_once] that are neither strings nor containers. *)
Definition scan_literal (s : string) : outcome (value * string) :=
  match strip_prefix "null" s with
  | Some r => Ok (Null, r)
  | None =>
  match strip_prefix "true" s with
  | Some r => Ok (Bool true, r)
  | None =>
  match strip_prefix "false" s with
  | Some r => Ok (Bool false, r)
  | None =>
  match scan_number s with
  | Some (Ok v, r) => Ok (v, r)
  | Some (Raise e, _) => Raise e
  | None =>
  match strip_prefix "NaN" s with
  | Some r => Ok (Float "NaN", r)
  | None =>
  match strip_prefix "Infinity" s with
  | Some r => Ok (Float "Infinity", r)
  | None =>
  match strip_prefix "-Infinity" s with
  | Some r => Ok (Float "-Infinity", r)
  | None => Raise JSONDecodeError
  end end end end end end end.

(** [dict(pairs)]: a later pair with the same key replaces the value and
    keeps the place of the first. *)
Fixpoint dict_set (key : list N) (v : value) (members : list (list N * value))
    : list (list N * value) :=
  match members with
  | [] => [(key, v)]
  | (k, v') :: rest =>
      if decide (k = key) then (k, v) :: rest else (k, v') :: dict_set key v rest
  end.

(** [scan_once], [JSONArray] and [JSONObject]. [depth] is the number of
    containers that can still be entered, one inside the other. *)
Fixpoint scan_once (fuel depth : nat) (s : string) : outcome (value * string) :=
  match fuel with
  | O => Raise JSONDecodeError
  | S fuel' =>
      match s with
      | EmptyString => Raise JSONDecodeError
      | String c rest =>
          if (PyStr.code c =? 34)%N then
            match scan_string rest [] with
            | Some (str, r) => Ok (Str str, r)
            | None => Raise JSONDecodeError
            end
          else if (PyStr.code c =? 123)%N then
            match depth with
            | O => Raise RecursionError
            | S depth' =>
                match skip_ws rest with
                | EmptyString => Raise JSONDecodeError
                | String c' r =>
                    if (PyStr.code c' =? 125)%N then Ok (Obj [], r)
                    else scan_members fuel' depth' (skip_ws rest) []
                end
            end
          else if (PyStr.code c =? 91)%N then
            match depth with
            | O => Raise RecursionError
            | S depth' =>
                match skip_ws rest with
                | EmptyString => Raise JSONDecodeError
                | String c' r =>
                    if (PyStr.code c' =? 93)%N then Ok (Arr [], r)
                    else scan_items fuel' depth' (skip_ws rest) []
                end
            end
          else scan_literal s
      end
  end
with scan_items (fuel depth : nat) (s : string) (acc : list value)
    : outcome (value * string) :=
  match fuel with
  | O => Raise JSONDecodeError
  | S fuel' =>
      match scan_once fuel' depth s with
      | Raise e => Raise e
      | Ok (v, r) =>
          match skip_ws r with
          | EmptyString => Raise JSONDecodeError
          | String c r' =>
              if (PyStr.code c =? 93)%N then Ok (Arr (acc ++ [v]), r')
              else if (PyStr.code c =? 44)%N
                   then scan_items fuel' depth (skip_ws r') (acc ++ [v])
                   else Raise JSONDecodeError
          end
      end
  end
with scan_members (fuel depth : nat) (s : string) (acc : list (list N * value))
    : outcome (value * string) :=
  match fuel with
  | O => Raise JSONDecodeError
  | S fuel' =>
      match s with
      | EmptyString => Raise JSONDecodeError
      | String q rest =>
          if negb (PyStr.code q =? 34)%N then Raise JSONDecodeError
          else
            match scan_string rest [] with
            | None => Raise JSONDecodeError
            | Some (key, r) =>
                match skip_ws r with
                | EmptyString => Raise JSONDecodeError
                | String colon r1 =>
                    if negb (PyStr.code colon =? 58)%N then Raise JSONDecodeError
                    else
                      match scan_once fuel' depth (skip_ws r1) with
                      | Raise e => Raise e
                      | Ok (v, r2) =>
                          match skip_ws r2 with
                          | EmptyString => Raise JSONDecodeError
                          | String c r3 =>
                              if (PyStr.code c =? 125)%N
                              then Ok (Obj (dict_set key v acc), r3)
                              else if (PyStr.code c =? 44)%N
                                   then scan_members fuel' depth (skip_ws r3)
                                          (dict_set key v acc)
                                   else Raise JSONDecodeError
                          end
                      end
                end
            end
      end
  end.

(** [json.loads]: one value, then nothing but white space. *)
Definition loads (s : string) : outcome value :=
  match scan_once (2 * String.length s + 2) recursion_room (skip_ws s) with
  | Ok (v, rest) =>
      match skip_ws rest with
      | EmptyString => Ok v
      | String _ _ => Raise JSONDecodeError
      end
  | Raise e => Raise e
  end.

End Scanner.

(** The fields of a record read back from a Python value. *)
Fixpoint get_field (members : list (list N * value)) (key : list N) : option string :=
  match members with
  | [] => None
  | (k, v) :: rest =>
      if decide (k = key)
      then match v with Str s => of_codes s | _ => None end
      else get_field rest key
  end.

Definition record_of (v : value) : option question :=
  match v with
  | Obj members =>
      match get_field members (codes "text"), get_field members (codes "type"),
            get_field members (codes "source") with
      | Some t, Some ty, Some src => Some {| text := t; type := ty; source := src |}
      | _, _, _ => None
      end
  | _ => None
  end.

Fixpoint records_of_items (items : list value) : option (list question) :=
  match items with
  | [] => Some []
  | v :: rest =>
      match record_of v, records_of_items rest with
      | Some q, Some qs => Some (q :: qs)
      | _, _ => None
      end
  end.

(** The bank that a loaded value is, when it is a list of records. *)
Definition records_of (v : value) : option (list question) :=
  match v with
  | Arr items => records_of_items items
  | _ => None
  end.

End Json.

(** ** The store *)

(** The file [question_bank.json] as [open(.., encoding='utf-8')] reads
    it: absent, bytes that do not decode as UTF-8, or the text it holds.
    What is there is taken to be a file that can be read: what [open]
    raises on a directory or without permission is not modelled. *)
Inductive store : Type :=
| Absent
| Undecodable
| Content (s : string).

Section Store.
Context {G : Type} `{RandomSource G} `{Interpreter}.

(** Lines 51-59: the bank at start-up. *)
Definition load_bank (file : store) : M G Json.value :=
  match file with
  | Absent => mret (Json.Arr [])
  | Undecodable => raise UnicodeDecodeError
  | Content s =>
      match Json.loads s with
      | Ok v => mret v
      | Raise JSONDecodeError => mret (Json.Arr [])
      | Raise e => raise e
      end
  end.

End Store.

(** Lines 85-87: the file that [save_bank] leaves. *)
Definition save_bank (bank : list question) : store := Content (Json.dumps bank).

(** ** Texts that are not a bank *)









(** An interpreter with the defaults of CPython 3.11: a recursion limit of
    1000, of which the frames of the start-up take a few, and 4300 digits. *)
Definition cpython_defaults : Interpreter :=
  {| recursion_room := 990;
     int_max_str_digits := 4300;
     recursion_room_records := le_n_S 1 989 (le_n_S 0 988 (Nat.le_0_l 988)) |}.

(** ** Ingestion *)

(** Lines 131-137 of [index]: classify the text of an upload and add it to
    the bank unless a record with the same text is there; the bank and the
    flashed messages afterwards. *)
Definition add_text (bank : list question) (flashes : list string)
    (filename text' : string) : list question * list string :=
  let qtype := classify_question text' in
  let entry := {| text := text'; type := qtype; source := filename |} in
  if negb (existsb (fun e => String.eqb (text e) text') bank)
  then (bank ++ [entry], flashes ++ ["Ingested " +:+ filename +:+ " as " +:+ qtype])
  else (bank, flashes ++ ["Duplicate " +:+ filename +:+ "; skipped."]).

(** Lines 128-137: the upload loop from the extracted text on. *)
Definition ingest (state : list question * list string) (upload : string * string)
    : list question * list string :=
  let (bank, flashes) := state in
  let (filename, text') := upload in
  match PyStr.strip text' with
  | EmptyString => (bank, flashes ++ ["Failed to extract text from " +:+ filename])
  | String _ _ => add_text bank flashes filename text'
  end.

(** Lines 119-137 over the uploads of one request, given as pairs of a
    file name and the text extracted from the file. *)
Definition ingest_all (bank : list question) (flashes : list string)
    (uploads : list (string * string)) : list question * list string :=
  foldl ingest (bank, flashes) uploads.

(** ** Uploads *)

Definition ALLOWED_EXTENSIONS : gset string := {[ "png"; "jpg"; "jpeg"; "txt" ]}.

(** [s.rsplit(sep, 1)] for a separator of one character: the text before
    and the text after the last [sep], or [s] alone when it has no [sep]. *)
Fixpoint rsplit1 (sep : ascii) (s : string) : list string :=
  match s with
  | EmptyString => [EmptyString]
  | String c s' =>
      match rsplit1 sep s' with
      | [before; after] => [String c before; after]
      | _ => if Ascii.eqb c sep then [EmptyString; s'] else [String c s']
      end
  end.

(** Lines 63-64. The index [[1]] is in range behind the test for a dot; the
    [None] branch stands for the [IndexError] that the test excludes. *)
Definition allowed_file (filename : string) : bool :=
  PyStr.contains "." filename &&
  match rsplit1 "."%char filename !! 1%nat with
  | Some ext => bool_decide (PyStr.lower ext ∈ ALLOWED_EXTENSIONS)
  | None => false
  end.

(** An extension that [allowed_file] accepts: no dot in it, and one of the
    allowed extensions once lower-cased. *)
Definition allowed_extension (ext : string) : Prop :=
  ~ PyStr.occurs_in "." ext /\ PyStr.lower ext ∈ ALLOWED_EXTENSIONS.

(** ** The upload route

    [secure_filename], the path arithmetic of [pathlib], the OCR of
    [extract_text_from_image] and [read_text] are library code or the file
    system. The first two are parameters; an uploaded file carries what the
    OCR and what [read_text] give for its content, a text or an exception.
    Saving the upload under [uploads/] is not modelled. *)

Record upload : Type := {
  up_filename : string;
  up_image : outcome string;
  up_text : outcome string
}.

(** The globals that the route reads and writes: the bank, the file of the
    store, the flashed messages. *)
Record app_state : Type := {
  app_bank : list question;
  app_store : store;
  app_flashes : list string
}.

Section Upload.
Variable secure_filename : string -> string.
(** [path_suffix filename] is [(UPLOAD_FOLDER / filename).suffix]. *)
Variable path_suffix : string -> string.

(** Lines 124-127. *)
Definition extracted_text (u : upload) (filename : string) : outcome string :=
  if bool_decide (PyStr.lower (path_suffix filename) ∈ [".png"; ".jpg"; ".jpeg"])
  then up_image u
  else up_text u.

(** Lines 120-137: the body of the loop over the files. [file and ...] is
    the test on the name alone, [allowed_file] being false on the empty
    name of a falsy file. *)
Definition handle_file (state : list question * list string) (u : upload)
    : outcome (list question * list string) :=
  if allowed_file (up_filename u) then
    let filename := secure_filename (up_filename u) in
    match extracted_text u filename with
    | Ok text' => Ok (ingest state (filename, text'))
    | Raise e => Raise e
    end
  else Ok state.

(** Lines 119-137: the loop, left at the first exception with the bank and
    the messages as they are then. *)
Fixpoint handle_files (state : list question * list string) (files : list upload)
    : outcome unit * (list question * list string) :=
  match files with
  | [] => (Ok tt, state)
  | u :: rest =>
      match handle_file state u with
      | Ok state' => handle_files state' rest
      | Raise e => (Raise e, state)
      end
  end.

(** Lines 114-139: the POST branch of [index], up to the redirect. *)
Definition index_post (files : list upload) (a : app_state)
    : outcome unit * app_state :=
  match files with
  | [] =>
      (Ok tt, {| app_bank := app_bank a; app_store := app_store a;
                 app_flashes := app_flashes a ++ ["No files selected"] |})
  | _ :: _ =>
      match handle_files (app_bank a, app_flashes a) files with
      | (Ok _, (bank, flashes)) =>
          (Ok tt, {| app_bank := bank; app_store := save_bank bank;
                     app_flashes := flashes |})
      | (Raise e, (bank, flashes)) =>
          (Raise e, {| app_bank := bank; app_store := app_store a;
                       app_flashes := flashes |})
      end
  end.

(** The uploads of a request that reach [ingest], as pairs of the secured
    file name and the extracted text. *)
Fixpoint extracted (files : list upload) : list (string * string) :=
  match files with
  | [] => []
  | u :: rest =>
      if allowed_file (up_filename u)
      then match extracted_text u (secure_filename (up_filename u)) with
           | Ok text' => (secure_filename (up_filename u), text') :: extracted rest
           | Raise _ => extracted rest
           end
      else extracted rest
  end.

(** No allowed file of the request fails to give a text. *)
Definition all_extract (files : list upload) : Prop :=
  Forall (fun u => allowed_file (up_filename u) = true ->
                   exists text', extracted_text u (secure_filename (up_filename u))
                                 = Ok text') files.

End Upload.

(** ** The exam route *)

(** Lines 154-165: the text that [exam] sends as [exam.txt]. *)
Definition exam {G : Type} `{RandomSource G} (bank : list question) : M G string :=
  generate_exam_text bank DEFAULT_STRUCTURE.

(** How often a record occurs in a list. *)
Definition occurrences (q : question) (qs : list question) : nat :=
  length (filter (fun x => x = q) qs).

(** A bank with enough candidates for every section of a structure: each
    category has one record more than the base count of its section. *)
Definition enough_for (bank : list question) (structure : list (string * Z)) : Prop :=
  Forall (fun item =>
    forall types, section_types (fst item) = Ok types ->
      forall t, t ∈ types ->
        snd item / Z.of_nat (length types) + 1 <= Z.of_nat (count_type t bank))
    structure.

(** A record as ingestion makes it: the text is not blank and the type is
    what the classifier says. *)
Definition ingested (q : question) : Prop :=
  PyStr.all_space (text q) = false /\ type q = classify_question (text q).

(** Examples: a bank with four distinct records of every label, two uploads, and
    stand-ins for the two parameters of the upload route. *)
Definition full_bank : list question :=
  flat_map (fun qtype => map (sample_record qtype) (seq 1 4))
    (remove_dups (map fst LR_types ++ map fst RC_types)).

Definition text_upload (name body : string) : upload :=
  {| up_filename := name; up_image := Raise ValueError; up_text := Ok body |}.

Definition broken_upload (name : string) : upload :=
  {| up_filename := name; up_image := Raise ValueError;
     up_text := Raise UnicodeDecodeError |}.

Definition plain_name (name : string) : string := name.

Definition last_suffix (name : string) : string :=
  match rsplit1 "."%char name with
  | [_; ext] => "." +:+ ext
  | _ => EmptyString
  end.

(* ================================================================== *)
(** * Properties *)

(** ** Strings *)

Lemma append_String (c : ascii) (a b : string) :
  String c a +:+ b = String c (a +:+ b).
Proof. reflexivity. Qed.

Lemma append_Empty (b : string) : EmptyString +:+ b = b.
Proof. reflexivity. Qed.

Lemma starts_with_spec (p s : string) :
  PyStr.starts_with p s = true <-> exists b : string, s = p +:+ b.
Proof.
  revert s. induction p as [|a p IH]; intros s; simpl.
  - split; [intros _; by exists s | done].
  - destruct s as [|b s]; simpl.
    + split; [done | intros [r Hr]; discriminate].
    + setoid_rewrite append_String.
      destruct (Ascii.eqb_spec a b) as [->|Hne].
      * rewrite IH. split; intros [r Hr]; exists r; congruence.
      * split; [done | intros [r Hr]; congruence].
Qed.

Lemma contains_spec (kw s : string) :
  PyStr.contains kw s = true <-> PyStr.occurs_in kw s.
Proof.
  unfold PyStr.occurs_in. induction s as [|c s IH]; simpl.
  - rewrite orb_false_r, starts_with_spec. split.
    + intros [b Hb]. by exists EmptyString, b.
    + intros [[|c a] [b Hab]]; [by exists b | discriminate].
  - rewrite orb_true_iff, starts_with_spec, IH. split.
    + intros [[b Hb] | (a & b & Hab)].
      * by exists EmptyString, b.
      * exists (String c a), b. by rewrite append_String, Hab.
    + intros [[|c' a] [b Hab]].
      * left. by exists b.
      * right. exists a, b. rewrite append_String in Hab. congruence.
Qed.

Lemma lower_char_space (c : ascii) : PyStr.is_space c = true -> PyStr.lower_char c = c.
Proof. destruct c as [[] [] [] [] [] [] [] []]; vm_compute; congruence. Qed.

Lemma lower_all_space (s : string) : PyStr.all_space s = true -> PyStr.lower s = s.
Proof.
  induction s as [|c s IH]; simpl; [done|].
  rewrite andb_true_iff. intros [Hc Hs]. by rewrite lower_char_space, IH.
Qed.

Lemma all_space_append (a b : string) :
  PyStr.all_space (a +:+ b) = PyStr.all_space a && PyStr.all_space b.
Proof.
  induction a as [|c a IH]; [done|].
  rewrite append_String. simpl. by rewrite IH, andb_assoc.
Qed.

(** A keyword that starts with a visible character does not occur in blank text. *)
Lemma blank_text_no_keyword (c : ascii) (kw s : string) :
  PyStr.is_space c = false -> PyStr.all_space s = true ->
  ~ PyStr.occurs_in (String c kw) s.
Proof.
  intros Hc Hs (a & b & ->).
  rewrite all_space_append, append_String in Hs. simpl in Hs.
  rewrite Hc in Hs. simpl in Hs. by rewrite andb_false_r in Hs.
Qed.

(** ** The classifier *)

Lemma any_keyword_spec (keywords : list string) (lc_text : string) :
  any_keyword keywords lc_text = true <-> category_matches keywords lc_text.
Proof.
  unfold any_keyword, category_matches. rewrite existsb_exists.
  split; intros (kw & Hin & Hkw); exists kw.
  - split; [by apply list_elem_of_In | by apply contains_spec].
  - split; [by apply list_elem_of_In | by apply contains_spec].
Qed.

Lemma scan_types_None (items : keyword_table) (lc_text : string) :
  scan_types items lc_text = None <->
  Forall (fun item => ~ category_matches (snd item) lc_text) items.
Proof.
  induction items as [|[qtype kws] rest IH]; simpl.
  - split; [by constructor | done].
  - rewrite Forall_cons. simpl. rewrite <- any_keyword_spec, <- IH.
    destruct (any_keyword kws lc_text).
    + split; [done | intros [Hno _]; by destruct Hno].
    + split; [by intros Hrest; split | by intros [_ Hrest]].
Qed.

Lemma scan_types_first (pre post : keyword_table) (qtype : string)
    (keywords : list string) (lc_text : string) :
  Forall (fun item => ~ category_matches (snd item) lc_text) pre ->
  category_matches keywords lc_text ->
  scan_types (pre ++ (qtype, keywords) :: post) lc_text = Some qtype.
Proof.
  intros Hpre Hkw. induction Hpre as [|[q kws] pre Hq Hpre IH]; simpl.
  - apply any_keyword_spec in Hkw. by rewrite Hkw.
  - destruct (any_keyword kws lc_text) eqn:E; [|exact IH].
    apply any_keyword_spec in E. by destruct Hq.
Qed.

Lemma classify_question_scan (text : string) :
  classify_question text =
  default "Unknown" (scan_types ordered_taxonomy (PyStr.lower text)).
Proof.
  unfold classify_question, ordered_taxonomy.
  generalize (PyStr.lower text) as lc. intros lc.
  generalize LR_types as lr. induction lr as [|[q kws] lr IH]; simpl.
  - by destruct (scan_types RC_types lc).
  - by destruct (any_keyword kws lc).
Qed.

Lemma taxonomy_keywords_visible :
  Forall (fun item => Forall (fun kw =>
     match kw with
     | EmptyString => False
     | String c _ => PyStr.is_space c = false
     end) (snd item)) ordered_taxonomy.
Proof. repeat (constructor; simpl; try reflexivity). Qed.

(** C1. [classify_question] lower-cases the text and walks the LR
    categories, then the RC categories, in declared order: the label of the
    first category one of whose keywords occurs in the lower-cased text is
    returned, so the earliest declared category wins (text with both
    "strengthen" and "weaken" is "Strengthen"); when no keyword of any
    category occurs, and so for empty or blank text, the result is
    "Unknown". *)
Theorem classify_question_first_match (text : string) :
  (forall (pre post : keyword_table) (qtype : string) (keywords : list string),
      ordered_taxonomy = pre ++ (qtype, keywords) :: post ->
      Forall (fun item => ~ category_matches (snd item) (PyStr.lower text)) pre ->
      category_matches keywords (PyStr.lower text) ->
      classify_question text = qtype)
  /\ (Forall (fun item => ~ category_matches (snd item) (PyStr.lower text))
        ordered_taxonomy ->
      classify_question text = "Unknown")
  /\ (PyStr.occurs_in "strengthen" (PyStr.lower text) ->
      PyStr.occurs_in "weaken" (PyStr.lower text) ->
      classify_question text = "Strengthen")
  /\ (PyStr.all_space text = true -> classify_question text = "Unknown").
Proof.
  assert (Hnone : Forall (fun item => ~ category_matches (snd item) (PyStr.lower text))
                    ordered_taxonomy -> classify_question text = "Unknown").
  { intros Hno. rewrite classify_question_scan.
    apply scan_types_None in Hno. by rewrite Hno. }
  split; [|split; [exact Hnone|split]].
  - intros pre post qtype keywords Hsplit Hpre Hkw.
    rewrite classify_question_scan, Hsplit.
    by rewrite (scan_types_first pre post qtype keywords).
  - intros Hs _. rewrite classify_question_scan.
    change ordered_taxonomy
      with ([] ++ ("Strengthen", ["strengthen"; "support"]) :: tail ordered_taxonomy).
    rewrite scan_types_first; [done | constructor |].
    exists "strengthen". split; [apply list_elem_of_here | exact Hs].
  - intros Hblank. apply Hnone.
    rewrite (lower_all_space text Hblank).
    eapply Forall_impl; [exact taxonomy_keywords_visible|].
    intros [q kws] Hkws (kw & Hin & Hocc). simpl in *.
    rewrite Forall_forall in Hkws. specialize (Hkws kw Hin).
    destruct kw as [|c kw]; [done|].
    by apply (blank_text_no_keyword c kw text).
Qed.

Lemma classify_question_first_match_witness :
  classify_question "Which answer would most STRENGTHEN, and which weaken, the claim?"
  = "Strengthen"
  /\ classify_question "Which mistake does the author's attitude reveal?" = "Flaw"
  /\ classify_question "What is the TONE of the passage?" = "Author's Attitude"
  /\ classify_question EmptyString = "Unknown".
Proof.
  pose proof (classify_question_first_match
    "Which answer would most STRENGTHEN, and which weaken, the claim?") as (_ & _ & H1 & _).
  pose proof (classify_question_first_match
    "Which mistake does the author's attitude reveal?") as (H2 & _).
  pose proof (classify_question_first_match
    "What is the TONE of the passage?") as (H3 & _).
  pose proof (classify_question_first_match EmptyString) as (_ & _ & _ & H4).
  split; [|split; [|split]].
  - apply H1; apply contains_spec; reflexivity.
  - apply (H2 (firstn 3 ordered_taxonomy) (skipn 4 ordered_taxonomy) "Flaw"
             ["flaw"; "error"; "mistake"]); [reflexivity | |].
    + apply scan_types_None. reflexivity.
    + apply any_keyword_spec. reflexivity.
  - apply (H3 (firstn 10 ordered_taxonomy) (skipn 11 ordered_taxonomy) "Author's Attitude"
             ["author's attitude"; "tone"]); [reflexivity | |].
    + apply scan_types_None. reflexivity.
    + apply any_keyword_spec. reflexivity.
  - apply H4. reflexivity.
Defined.

(** ** Computations of the composer *)

Section ComposerProperties.
Context {G : Type} `{RandomSource G}.

Lemma returns_ret {A : Type} (a : A) (w : world G) (P : A -> world G -> Prop) :
  P a w -> returns (mret a) w P.
Proof. intros HP. by exists a, w. Qed.

Lemma returns_bind {A B : Type} (m : M G A) (f : A -> M G B) (w : world G)
    (P : B -> world G -> Prop) :
  returns m w (fun a w' => returns (f a) w' P) -> returns (m ≫= f) w P.
Proof.
  intros (a & w' & Hm & b & w'' & Hf & HP). exists b, w''. split; [|done].
  unfold mbind, M_bind. by rewrite Hm.
Qed.

Lemma returns_impl {A : Type} (m : M G A) (w : world G) (P Q : A -> world G -> Prop) :
  (forall a w', P a w' -> Q a w') -> returns m w P -> returns m w Q.
Proof. intros HPQ (a & w' & Hm & HP). exists a, w'. auto. Qed.

Lemma returns_random_below (n : nat) (w : world G) :
  (0 < n)%nat ->
  returns (random_below n) w (fun j w' => (j < n)%nat /\ log w' = log w).
Proof.
  intros Hn. unfold returns, random_below.
  pose proof (randbelow_lt n (gen w) Hn) as Hlt.
  destruct (randbelow n (gen w)) as [j g']. simpl in Hlt.
  by exists j, {| gen := g'; log := log w |}.
Qed.

Lemma returns_logging_warning (msg : string) (w : world G) :
  returns (logging_warning msg) w
    (fun _ w' => gen w' = gen w /\ log w' = log w ++ [msg]).
Proof. by eexists tt, _. Qed.

(** *** [random.sample] *)

Lemma draw_sample_spec {A : Type} (pool : list A) (k : nat) (w : world G) :
  (k <= length pool)%nat ->
  returns (draw_sample pool k) w
    (fun picked w' => length picked = k /\ picked ⊆+ pool /\ log w' = log w).
Proof.
  revert pool w. induction k as [|k IH]; intros pool w Hk; simpl.
  - apply returns_ret. split; [done|]. split; [apply submseteq_nil_l | done].
  - apply returns_bind.
    eapply returns_impl; [|apply returns_random_below; lia].
    intros j w1 [Hj Hlog1]. simpl.
    destruct (lookup_lt_is_Some_2 pool j Hj) as [x Hx]. rewrite Hx.
    apply returns_bind.
    eapply returns_impl; [|apply IH; rewrite length_delete by eauto; lia].
    intros rest w2 (Hlen & Hsub & Hlog2). simpl.
    apply returns_ret. split; [simpl; lia|]. split; [|congruence].
    rewrite (delete_Permutation pool j x Hx). by apply submseteq_skip.
Qed.

Lemma random_sample_spec {A : Type} (population : list A) (k : Z) (w : world G) :
  0 <= k <= Z.of_nat (length population) ->
  returns (random_sample population k) w
    (fun picked w' => Z.of_nat (length picked) = k /\ picked ⊆+ population
                      /\ log w' = log w).
Proof.
  intros Hk. unfold random_sample.
  destruct (Z.ltb_spec k 0); [lia|].
  destruct (Z.ltb_spec (Z.of_nat (length population)) k); [lia|]. simpl.
  eapply returns_impl; [|apply draw_sample_spec; lia].
  intros picked w' (Hlen & Hsub & Hlog). repeat split; [lia | done | done].
Qed.


(** *** [random.shuffle] *)

Lemma exchange_Permutation {A : Type} (i j : nat) (x : list A) : exchange i j x ≡ₚ x.
Proof.
  unfold exchange.
  destruct (x !! i) as [a|] eqn:Hi; [|done].
  destruct (x !! j) as [b|] eqn:Hj; [|done].
  by apply Permutation_insert_swap.
Qed.

Lemma shuffle_down_spec {A : Type} (n : nat) (x : list A) (w : world G) :
  returns (shuffle_down n x) w (fun y w' => y ≡ₚ x /\ log w' = log w).
Proof.
  revert x w. induction n as [|n IH]; intros x w; simpl.
  - by apply returns_ret.
  - apply returns_bind.
    eapply returns_impl; [|apply returns_random_below; lia].
    intros j w1 [_ Hlog1]. simpl.
    eapply returns_impl; [|apply IH].
    intros y w2 [Hperm Hlog2]. split; [|congruence].
    by rewrite Hperm, exchange_Permutation.
Qed.

Lemma random_shuffle_spec {A : Type} (x : list A) (w : world G) :
  returns (random_shuffle x) w (fun y w' => y ≡ₚ x /\ log w' = log w).
Proof. apply shuffle_down_spec. Qed.

(** *** The allocation *)

Lemma increment_map (e : string) (g : string -> Z) (types : list string) :
  increment e (map (fun t => (t, g t)) types)
  = map (fun t => (t, if decide (t = e) then g t + 1 else g t)) types.
Proof.
  unfold increment. rewrite map_map. apply map_ext. intros t. simpl.
  destruct (String.eqb_spec t e); destruct (decide (t = e)); done.
Qed.

Lemma foldl_increment (extra : list string) (g : string -> Z) (types : list string) :
  NoDup extra ->
  foldl (fun counts t => increment t counts) (map (fun t => (t, g t)) types) extra
  = map (fun t => (t, if decide (t ∈ extra) then g t + 1 else g t)) types.
Proof.
  intros Hnd. revert g. induction Hnd as [|e extra Hnotin Hnd IH]; intros g; simpl.
  - apply map_ext. intros t. destruct (decide (t ∈ [])) as [Hin|]; [|done].
    by apply elem_of_nil in Hin.
  - rewrite increment_map, IH. apply map_ext. intros t.
    destruct (decide (t = e)) as [->|Hne].
    + destruct (decide (e ∈ extra)); [done|].
      destruct (decide (e ∈ e :: extra)) as [|Hn]; [done|].
      destruct Hn. apply list_elem_of_here.
    + destruct (decide (t ∈ extra)) as [Hin|Hnin];
        destruct (decide (t ∈ e :: extra)) as [Hin'|Hnin']; try done.
      * destruct Hnin'. by apply list_elem_of_further.
      * apply elem_of_cons in Hin' as [?|?]; done.
Qed.

Lemma total_slots_marked (types : list string) (base : Z) (P : string -> Prop)
    `{!forall t, Decision (P t)} :
  total_slots (map (fun t => (t, if decide (P t) then base + 1 else base)) types)
  = base * Z.of_nat (length types) + Z.of_nat (length (filter P types)).
Proof.
  unfold total_slots. induction types as [|t types IH]; simpl; [lia|].
  rewrite IH, filter_cons. destruct (decide (P t)); simpl; lia.
Qed.

Lemma submseteq_NoDup {A : Type} (l k : list A) : l ⊆+ k -> NoDup k -> NoDup l.
Proof.
  intros Hsub Hk. apply submseteq_Permutation in Hsub as [r Hr].
  rewrite Hr in Hk. by apply NoDup_app in Hk as [? _].
Qed.

Lemma filter_chosen_length (types extra : list string) :
  NoDup types -> extra ⊆+ types ->
  length (filter (fun t => t ∈ extra) types) = length extra.
Proof.
  intros Hnd Hsub. apply Permutation_length, NoDup_Permutation.
  - by apply NoDup_filter.
  - by apply (submseteq_NoDup extra types).
  - intros t. rewrite list_elem_of_filter. split; [by intros [? _]|].
    intros Hin. split; [done|]. by apply (elem_of_submseteq extra types).
Qed.

Lemma allocation_total (types : list string) (total : Z) (extra : list string)
    (counts : list (string * Z)) :
  types <> [] -> NoDup types -> allocation types total extra counts ->
  total_slots counts = total.
Proof.
  intros Hne Hnd (Hnde & Hsub & Hlen & ->).
  rewrite (total_slots_marked types _ (fun t => t ∈ extra)).
  rewrite filter_chosen_length by done. rewrite Hlen.
  assert (Z.of_nat (length types) <> 0) by (destruct types; [done | simpl; lia]).
  pose proof (Z.div_mod total (Z.of_nat (length types))). lia.
Qed.

Lemma allocation_keys (types : list string) (total : Z) (extra : list string)
    (counts : list (string * Z)) :
  allocation types total extra counts -> map fst counts = types.
Proof.
  intros (_ & _ & _ & ->). rewrite map_map. simpl. apply map_id.
Qed.

Lemma allocation_nonneg (types : list string) (total : Z) (extra : list string)
    (counts : list (string * Z)) :
  types <> [] -> 0 <= total -> allocation types total extra counts ->
  Forall (fun item => 0 <= snd item) counts.
Proof.
  intros Hne Htot (_ & _ & _ & ->).
  assert (0 < Z.of_nat (length types)) by (destruct types; [done | simpl; lia]).
  assert (0 <= total / Z.of_nat (length types)) by (apply Z.div_pos; lia).
  apply Forall_forall. intros item Hin.
  apply list_elem_of_fmap in Hin as (t & -> & _). simpl.
  destruct (decide (t ∈ extra)); lia.
Qed.

(** The allocation of a section: every category has the base count, the
    categories of a duplicate-free sample of [total mod n] categories have
    one more. *)
Lemma allocate_spec (types : list string) (total : Z) (w : world G) :
  types <> [] -> NoDup types ->
  returns (allocate types total) w (fun counts w' =>
    (exists extra : list string, allocation types total extra counts)
    /\ log w' = log w).
Proof.
  intros Hne Hnd. unfold allocate.
  destruct (Nat.eqb_spec (length types) 0) as [Hz|Hnz].
  { destruct types; [done | discriminate]. }
  assert (Hn : 0 < Z.of_nat (length types)) by lia.
  pose proof (Z.mod_pos_bound total _ Hn) as Hrem.
  apply returns_bind.
  eapply returns_impl; [|apply random_sample_spec; lia].
  intros extra w' (Hlen & Hsub & Hlog). apply returns_ret.
  assert (Hnde : NoDup extra) by by apply (submseteq_NoDup extra types).
  split; [|done]. exists extra. repeat split; try done.
  by apply foldl_increment.
Qed.

(** *** The loop over the categories *)

Lemma pick_category_spec (section_questions : list question) (item : string * Z)
    (w : world G) :
  0 <= snd item ->
  returns (pick_category section_questions item) w (fun picked w' =>
    taken_for section_questions item picked
    /\ log w' = log w ++ shortage_warnings section_questions [item]).
Proof.
  destruct item as [qtype cnt]. simpl. intros Hcnt.
  unfold pick_category, shortage_warnings, taken_for. simpl. rewrite app_nil_r.
  set (candidates := candidates_of section_questions qtype).
  apply returns_bind.
  destruct (Z.ltb_spec (Z.of_nat (length candidates)) cnt) as [Hshort|Henough].
  - eapply returns_impl; [|apply returns_logging_warning].
    intros _ w1 [_ Hlog1]. simpl.
    eapply returns_impl; [|apply random_sample_spec; lia].
    intros picked w2 (Hlen & Hsub & Hlog2). split; [done | congruence].
  - apply returns_ret.
    eapply returns_impl; [|apply random_sample_spec; lia].
    intros picked w2 (Hlen & Hsub & Hlog2). rewrite app_nil_r. done.
Qed.

Lemma shortage_warnings_cons (section_questions : list question) (item : string * Z)
    (counts : list (string * Z)) :
  shortage_warnings section_questions (item :: counts)
  = shortage_warnings section_questions [item]
    ++ shortage_warnings section_questions counts.
Proof. unfold shortage_warnings. simpl. by rewrite app_nil_r. Qed.

Lemma pick_all_spec (section_questions : list question) (counts : list (string * Z))
    (selected : list question) (w : world G) :
  Forall (fun item => 0 <= snd item) counts ->
  returns (pick_all section_questions counts selected) w (fun selected' w' =>
    (exists picks : list (list question),
        selected' = selected ++ concat picks
        /\ Forall2 (taken_for section_questions) counts picks)
    /\ log w' = log w ++ shortage_warnings section_questions counts).
Proof.
  intros Hcounts. revert selected w.
  induction Hcounts as [|item counts Hitem Hcounts IH]; intros selected w;
    cbn [pick_all].
  - apply returns_ret. split; [|by rewrite app_nil_r].
    exists []. split; [by rewrite app_nil_r | constructor].
  - apply returns_bind.
    eapply returns_impl; [|by apply pick_category_spec].
    intros picked w1 [Htaken Hlog1]. cbn beta.
    eapply returns_impl; [|apply IH].
    intros selected' w2 [(picks & -> & Hpicks) Hlog2]. split.
    + exists (picked :: picks). split; [simpl; by rewrite app_assoc|].
      by apply Forall2_cons.
    + rewrite shortage_warnings_cons, Hlog2, Hlog1. by rewrite app_assoc.
Qed.

(** *** One section *)

Lemma select_types_spec (types : list string) (bank selected : list question)
    (total : Z) (w : world G) :
  types <> [] -> NoDup types -> 0 <= total ->
  returns (select_types types bank selected total) w (fun selected' w' =>
    exists (extra : list string) (counts : list (string * Z))
           (picks : list (list question)),
      allocation types total extra counts
      /\ Forall2 (taken_for (eligible types bank)) counts picks
      /\ selected' = selected ++ concat picks
      /\ log w' = log w ++ shortage_warnings (eligible types bank) counts).
Proof.
  intros Hne Hnd Htot. unfold select_types.
  apply returns_bind.
  eapply returns_impl; [|by apply allocate_spec].
  intros counts w1 [[extra Halloc] Hlog1]. simpl.
  eapply returns_impl;
    [|apply pick_all_spec; by apply (allocation_nonneg types total extra)].
  intros selected' w2 [(picks & -> & Hpicks) Hlog2].
  exists extra, counts, picks.
  split; [done|]. split; [done|]. split; [done|]. by rewrite Hlog2, Hlog1.
Qed.

Lemma taken_all_of_type (section_questions : list question) (item : string * Z)
    (picked : list question) :
  taken_for section_questions item picked ->
  Forall (fun q => type q = fst item) picked.
Proof.
  intros [Hsub _]. apply Forall_forall. intros q Hq.
  apply (elem_of_submseteq _ _ _ Hq) in Hsub.
  unfold candidates_of in Hsub. by apply list_elem_of_filter in Hsub as [? _].
Qed.

Lemma count_type_app (t : string) (a b : list question) :
  count_type t (a ++ b) = (count_type t a + count_type t b)%nat.
Proof. unfold count_type. by rewrite filter_app, length_app. Qed.

Lemma count_type_all (t : string) (qs : list question) :
  Forall (fun q => type q = t) qs -> count_type t qs = length qs.
Proof.
  unfold count_type. induction 1 as [|q qs Hq _ IH]; [done|].
  rewrite filter_cons. destruct (decide (type q = t)); [simpl; lia | done].
Qed.

Lemma count_type_none (t t' : string) (qs : list question) :
  t <> t' -> Forall (fun q => type q = t') qs -> count_type t qs = 0%nat.
Proof.
  unfold count_type. intros Hne. induction 1 as [|q qs Hq _ IH]; [done|].
  rewrite filter_cons. destruct (decide (type q = t)); [congruence | done].
Qed.

Lemma count_type_Permutation (t : string) (a b : list question) :
  a ≡ₚ b -> count_type t a = count_type t b.
Proof. unfold count_type. by intros ->. Qed.

Lemma taken_other_types (section_questions : list question) (t : string)
    (counts : list (string * Z)) (picks : list (list question)) :
  Forall2 (taken_for section_questions) counts picks ->
  t ∉ map fst counts -> count_type t (concat picks) = 0%nat.
Proof.
  induction 1 as [|item picked counts picks Htaken _ IH]; [done|].
  simpl. rewrite not_elem_of_cons. intros [Hne Hnotin].
  rewrite count_type_app, IH by done.
  rewrite (count_type_none t (fst item)); [done | done |].
  by apply (taken_all_of_type section_questions).
Qed.

(** With distinct category labels, the records of one type among those
    taken for a section are the ones taken for that category. *)
Lemma taken_count_type (section_questions : list question)
    (counts : list (string * Z)) (picks : list (list question)) (item : string * Z) :
  Forall2 (taken_for section_questions) counts picks ->
  NoDup (map fst counts) -> item ∈ counts ->
  Z.of_nat (count_type (fst item) (concat picks))
  = Z.min (snd item)
      (Z.of_nat (length (candidates_of section_questions (fst item)))).
Proof.
  induction 1 as [|item0 picked counts picks Htaken Hrest IH]; simpl.
  - intros _ Hin. by apply elem_of_nil in Hin.
  - rewrite NoDup_cons. intros [Hnotin Hnd] Hin. rewrite count_type_app.
    apply elem_of_cons in Hin as [->|Hin].
    + rewrite (taken_other_types section_questions _ counts picks) by done.
      rewrite count_type_all by by apply (taken_all_of_type section_questions).
      destruct Htaken as [_ Hlen]. lia.
    + rewrite (count_type_none (fst item) (fst item0)).
      * by apply IH.
      * intros Heq. apply Hnotin. rewrite <- Heq.
        by apply (list_elem_of_fmap_2 fst counts item).
      * by apply (taken_all_of_type section_questions).
Qed.

(** What is taken for a section is never more than its slots, and it is
    less only when some category is short. *)
Lemma taken_length (section_questions : list question)
    (counts : list (string * Z)) (picks : list (list question)) :
  Forall2 (taken_for section_questions) counts picks ->
  Z.of_nat (length (concat picks)) <= total_slots counts
  /\ (Z.of_nat (length (concat picks)) < total_slots counts ->
      Exists (short section_questions) counts).
Proof.
  unfold total_slots.
  induction 1 as [|item picked counts picks [_ Hlen] _ [IHle IHlt]]; simpl.
  - split; [done | lia].
  - rewrite length_app, Nat2Z.inj_add. split; [lia|].
    intros Hlt.
    destruct (Z.lt_ge_cases
                (Z.of_nat (length (candidates_of section_questions (fst item))))
                (snd item)) as [Hshort|Henough].
    + by apply Exists_cons_hd.
    + apply Exists_cons_tl, IHlt. lia.
Qed.

(** *** The sections of the taxonomy *)

Lemma LR_labels_NoDup : NoDup (map fst LR_types).
Proof. apply (bool_decide_unpack _). vm_compute. exact I. Qed.

Lemma RC_labels_NoDup : NoDup (map fst RC_types).
Proof. apply (bool_decide_unpack _). vm_compute. exact I. Qed.

Lemma section_types_known (section : string) (types : list string) :
  section_types section = Ok types -> types <> [] /\ NoDup types.
Proof.
  unfold section_types, QUESTION_TYPES. cbn [getitem].
  destruct (String.eqb "LR" section).
  { intros [= <-]. split; [done | apply LR_labels_NoDup]. }
  destruct (String.eqb "RC" section); [|done].
  intros [= <-]. split; [done | apply RC_labels_NoDup].
Qed.

Lemma section_types_defined (section : string) :
  section = "LR" \/ section = "RC" ->
  exists types : list string, section_types section = Ok types.
Proof. intros [-> | ->]; eexists; reflexivity. Qed.

Lemma select_section_spec (bank selected : list question) (item : string * Z)
    (w : world G) :
  (fst item = "LR" \/ fst item = "RC") -> 0 <= snd item ->
  returns (select_section bank selected item) w (fun selected' w' =>
    exists (chunk : list question) (warnings : list string),
      section_run bank item chunk warnings
      /\ selected' = selected ++ chunk
      /\ log w' = log w ++ warnings).
Proof.
  destruct item as [section total]. simpl. intros Hknown Htot.
  destruct (section_types_defined section Hknown) as [types Htypes].
  destruct (section_types_known section types Htypes) as [Hne Hnd].
  unfold select_section. apply returns_bind.
  exists types, w. split; [unfold lift; by rewrite Htypes|].
  eapply returns_impl; [|by apply select_types_spec].
  intros selected' w' (extra & counts & picks & Halloc & Hpicks & -> & Hlog).
  exists (concat picks), (shortage_warnings (eligible types bank) counts).
  split; [|done]. by exists types, extra, counts, picks.
Qed.

Lemma select_all_spec (bank : list question) (structure : list (string * Z))
    (selected : list question) (w : world G) :
  well_formed structure ->
  returns (select_all bank structure selected) w (fun selected' w' =>
    exists (chunks : list (list question)) (warnings : list (list string)),
      Forall3 (section_run bank) structure chunks warnings
      /\ selected' = selected ++ concat chunks
      /\ log w' = log w ++ concat warnings).
Proof.
  intros Hwf. revert selected w.
  induction Hwf as [|item structure [Hknown Htot] _ IH]; intros selected w;
    cbn [select_all].
  - apply returns_ret. exists [], []. simpl. rewrite !app_nil_r.
    split; [constructor | done].
  - apply returns_bind.
    eapply returns_impl; [|by apply select_section_spec].
    intros selected1 w1 (chunk & warns & Hrun & -> & Hlog1). cbn beta.
    eapply returns_impl; [|apply IH].
    intros selected' w' (chunks & warnings & Hruns & -> & Hlog').
    exists (chunk :: chunks), (warns :: warnings). simpl.
    split; [by constructor|]. rewrite Hlog', Hlog1. by rewrite !app_assoc.
Qed.

Lemma compose_spec (bank : list question) (structure : list (string * Z))
    (w : world G) :
  well_formed structure ->
  returns (compose bank structure) w (fun exam w' =>
    exists (chunks : list (list question)) (warnings : list (list string)),
      Forall3 (section_run bank) structure chunks warnings
      /\ exam ≡ₚ concat chunks
      /\ log w' = log w ++ concat warnings).
Proof.
  intros Hwf. unfold compose. apply returns_bind.
  eapply returns_impl; [|by apply select_all_spec].
  intros selected w1 (chunks & warnings & Hruns & -> & Hlog1). simpl.
  eapply returns_impl; [|apply random_shuffle_spec].
  intros exam w' [Hperm Hlog']. exists chunks, warnings.
  split; [done|]. split; [done | congruence].
Qed.

(** *** Allocation, shortage and the size of a section *)

Lemma filter_marked_length (types : list string) (base : Z) (P : string -> Prop)
    `{!forall t, Decision (P t)} :
  length (filter (fun item : string * Z => snd item = base + 1)
            (map (fun t => (t, if decide (P t) then base + 1 else base)) types))
  = length (filter P types).
Proof.
  induction types as [|t types IH]; [done|].
  cbn [map]. rewrite !filter_cons. simpl.
  destruct (decide (P t)).
  - destruct (decide (base + 1 = base + 1)); [simpl; by rewrite IH | done].
  - destruct (decide (base = base + 1)); [lia | done].
Qed.

(** The allocation inside a round of the loop over the sections. *)
Lemma allocate_per_section (section : string) (types : list string)
    (bank selected : list question) (total : Z) (w : world G) :
  section_types section = Ok types ->
  select_section bank selected (section, total) w
  = (counts ← allocate types total;
     pick_all (eligible types bank) counts selected) w
  /\ returns (allocate types total) w (fun counts w' =>
       let n := Z.of_nat (length types) in
       let base := total / n in
       let rem := total mod n in
       (base * n <= total < (base + 1) * n /\ total = base * n + rem)
       /\ (exists extra : list string,
             NoDup extra /\ extra ⊆+ types /\ Z.of_nat (length extra) = rem
             /\ counts = map (fun t => (t, if decide (t ∈ extra)
                                          then base + 1 else base)) types)
       /\ Z.of_nat (length (filter (fun item => snd item = base + 1) counts)) = rem
       /\ total_slots counts = total).
Proof.
  intros Htypes.
  destruct (section_types_known section types Htypes) as [Hne Hnd].
  split.
  { unfold select_section, select_types, lift. unfold mbind at 1, M_bind at 1.
    by rewrite Htypes. }
  eapply returns_impl; [|by apply allocate_spec].
  intros counts w' [[extra Halloc] _]. cbn zeta.
  assert (Hn : 0 < Z.of_nat (length types)) by (destruct types; [done | simpl; lia]).
  pose proof (Z.div_mod total (Z.of_nat (length types))) as Hdm.
  pose proof (Z.mod_pos_bound total _ Hn) as Hrem.
  split; [lia|].
  pose proof (allocation_total types total extra counts Hne Hnd Halloc) as Hsum.
  destruct Halloc as (Hnde & Hsub & Hlen & Hcounts).
  split; [by exists extra|]. split; [|done].
  rewrite Hcounts, (filter_marked_length types _ (fun t => t ∈ extra)).
  by rewrite filter_chosen_length.
Qed.

(** In the loop over the allocated counts, a category with fewer
    candidates than slots gets a warning that names the category, the
    needed count and the available count, all its candidates are taken and
    the loop goes on; a category with enough candidates gets exactly its
    count of records, taken at distinct positions of its candidate list. *)
Lemma pick_all_shortage (section_questions : list question)
    (counts : list (string * Z)) (selected : list question) (w : world G) :
  Forall (fun item => 0 <= snd item) counts ->
  returns (pick_all section_questions counts selected) w (fun selected' w' =>
    exists (picks : list (list question)) (warnings : list (list string)),
      selected' = selected ++ concat picks
      /\ log w' = log w ++ concat warnings
      /\ Forall3 (fun item picked warns =>
            let candidates := candidates_of section_questions (fst item) in
            picked ⊆+ candidates
            /\ (Z.of_nat (length candidates) < snd item ->
                picked ≡ₚ candidates
                /\ warns = ["Not enough '" +:+ fst item +:+ "' questions: needed "
                            +:+ PyStr.str_of_Z (snd item) +:+ ", available "
                            +:+ PyStr.str_of_nat (length candidates)])
            /\ (snd item <= Z.of_nat (length candidates) ->
                Z.of_nat (length picked) = snd item /\ warns = []))
          counts picks warnings).
Proof.
  intros Hcounts.
  eapply returns_impl; [|by apply pick_all_spec].
  intros selected' w' [(picks & -> & Hpicks) ->].
  exists picks,
    (map (fun item => shortage_warnings section_questions [item]) counts).
  split; [done|]. split.
  { f_equal. unfold shortage_warnings. clear.
    induction counts as [|item counts IH]; [done|].
    simpl. by rewrite app_nil_r, IH. }
  clear Hcounts. induction Hpicks as [|item picked counts picks [Hsub Hlen] _ IH];
    cbn [map]; constructor; [|exact IH].
  cbn zeta. split; [done|].
  unfold shortage_warnings, shortage_message. cbn [flat_map]. rewrite app_nil_r.
  split.
  - intros Hshort. split.
    + apply submseteq_length_Permutation; [done | lia].
    + by destruct (Z.ltb_spec
        (Z.of_nat (length (candidates_of section_questions (fst item)))) (snd item));
        [|lia].
  - intros Henough. split; [lia|].
    by destruct (Z.ltb_spec
        (Z.of_nat (length (candidates_of section_questions (fst item)))) (snd item));
        [lia|].
Qed.

Lemma section_run_length (bank : list question) (item : string * Z)
    (chunk : list question) (warnings : list string) :
  section_run bank item chunk warnings ->
  Z.of_nat (length chunk) <= snd item
  /\ (Z.of_nat (length chunk) < snd item ->
      exists (types : list string) (qtype : string) (cnt : Z),
        section_types (fst item) = Ok types /\ qtype ∈ types
        /\ snd item / Z.of_nat (length types) <= cnt
            <= snd item / Z.of_nat (length types) + 1
        /\ Z.of_nat (length (candidates_of (eligible types bank) qtype)) < cnt).
Proof.
  intros (types & extra & counts & picks & Htypes & Halloc & Hpicks & -> & _).
  destruct (section_types_known _ types Htypes) as [Hne Hnd].
  pose proof (allocation_total types _ extra counts Hne Hnd Halloc) as Hsum.
  destruct (taken_length _ counts picks Hpicks) as [Hle Hlt].
  rewrite Hsum in Hle, Hlt. split; [done|].
  intros Hless. apply Hlt, Exists_exists in Hless as ([qtype cnt] & Hin & Hshort).
  exists types, qtype, cnt. split; [done|].
  destruct Halloc as (_ & _ & _ & ->).
  apply list_elem_of_fmap in Hin as (t & [= -> ->] & Hin).
  split; [done|]. split; [destruct (decide (t ∈ extra)); lia|].
  unfold short in Hshort. simpl in Hshort. done.
Qed.

Lemma taken_short (section_questions : list question)
    (counts : list (string * Z)) (picks : list (list question)) :
  Forall2 (taken_for section_questions) counts picks ->
  Exists (short section_questions) counts ->
  Z.of_nat (length (concat picks)) < total_slots counts.
Proof.
  unfold total_slots.
  induction 1 as [|item picked counts picks [Hsub Hlen] Hrest IH]; simpl.
  - intros Hex. by apply Exists_nil in Hex.
  - pose proof (taken_length _ _ _ Hrest) as [Hle _]. unfold total_slots in Hle.
    rewrite length_app, Nat2Z.inj_add. intros Hex.
    apply Exists_cons in Hex as [Hshort | Hex].
    + unfold short in Hshort. lia.
    + specialize (IH Hex). lia.
Qed.

(** C4. For every bank and every structure over the sections of the
    taxonomy with non-negative targets, composition returns normally
    whatever the bank holds. The exam is made of one chunk per section, in
    the order of the structure: the chunk of a section holds, for each of
    its categories, as many candidates of that category as the category
    was allocated, or all of them when there are fewer. So the records
    selected for a section are never more than its target, and they are
    fewer exactly when one of its categories has fewer candidates than the
    slots it was allocated in this run. *)
Theorem section_never_exceeds_target (bank : list question)
    (structure : list (string * Z)) (w : world G) :
  well_formed structure ->
  returns (compose bank structure) w (fun exam w' =>
    exists (chunks : list (list question)) (warnings : list (list string)),
      exam ≡ₚ concat chunks
      /\ log w' = log w ++ concat warnings
      /\ Forall3 (fun item chunk warns =>
            exists (types extra : list string) (counts : list (string * Z))
                   (picks : list (list question)),
              section_types (fst item) = Ok types
              /\ allocation types (snd item) extra counts
              /\ Forall2 (taken_for (eligible types bank)) counts picks
              /\ chunk = concat picks
              /\ warns = shortage_warnings (eligible types bank) counts
              /\ Z.of_nat (length chunk) <= snd item
              /\ (Z.of_nat (length chunk) < snd item
                  <-> Exists (short (eligible types bank)) counts))
          structure chunks warnings)
  /\ returns (generate_exam_text bank structure) w (fun _ _ => True).
Proof.
  intros Hwf.
  assert (Hcompose := compose_spec bank structure w Hwf).
  split.
  - eapply returns_impl; [|exact Hcompose].
    intros exam w' (chunks & warnings & Hruns & Hperm & Hlog).
    exists chunks, warnings. split; [done|]. split; [done|].
    clear Hperm Hlog Hwf Hcompose.
    induction Hruns as [|item chunk warns structure chunks warnings Hrun _ IH];
      constructor; [|exact IH].
    destruct Hrun as (types & extra & counts & picks & Htypes & Halloc & Hpicks
                      & -> & ->).
    exists types, extra, counts, picks. do 5 (split; [done|]).
    destruct (section_types_known _ types Htypes) as [Hne Hnd].
    pose proof (allocation_total types _ extra counts Hne Hnd Halloc) as Hsum.
    destruct (taken_length _ counts picks Hpicks) as [Hle Hlt].
    pose proof (taken_short _ counts picks Hpicks) as Hshort.
    rewrite Hsum in Hle, Hlt, Hshort. split; [done|]. by split.
  - unfold generate_exam_text. apply returns_bind.
    eapply returns_impl; [|exact Hcompose].
    intros exam w' _. by apply returns_ret.
Qed.

Lemma taken_from_pool (section_questions : list question)
    (counts : list (string * Z)) (picks : list (list question)) :
  Forall2 (taken_for section_questions) counts picks ->
  Forall (fun q => q ∈ section_questions) (concat picks).
Proof.
  induction 1 as [|item picked counts picks [Hsub _] _ IH]; [constructor|].
  simpl. apply Forall_app. split; [|exact IH].
  apply Forall_forall. intros q Hq. apply (elem_of_submseteq _ _ _ Hq) in Hsub.
  unfold candidates_of in Hsub. by apply list_elem_of_filter in Hsub as [_ ?].
Qed.

(** *** An even split *)

Lemma candidates_eligible (types : list string) (bank : list question) (t : string) :
  t ∈ types ->
  length (candidates_of (eligible types bank) t) = count_type t bank.
Proof.
  intros Hin. unfold candidates_of, eligible, count_type.
  induction bank as [|q bank IH]; [done|].
  rewrite !filter_cons.
  destruct (decide (type q = t)) as [Heq|Hne].
  - destruct (decide (type q ∈ types)) as [|Hout]; [|by rewrite Heq in Hout].
    rewrite filter_cons. destruct (decide (type q = t)); [|done].
    simpl. by rewrite IH.
  - destruct (decide (type q ∈ types)); [|done].
    rewrite filter_cons. by destruct (decide (type q = t)).
Qed.

(** When the target is a multiple [base * n] of the number of categories
    and every category has [base] candidates, every category contributes
    exactly [base] records and nothing is logged. *)
Lemma even_split (types : list string) (bank selected : list question)
    (base : Z) (w : world G) :
  types <> [] -> NoDup types -> 0 <= base ->
  (forall t, t ∈ types -> base <= Z.of_nat (count_type t bank)) ->
  returns (select_types types bank selected (base * Z.of_nat (length types))) w
    (fun selected' w' =>
      exists chunk : list question,
        selected' = selected ++ chunk
        /\ Forall (fun q => q ∈ bank /\ type q ∈ types) chunk
        /\ Z.of_nat (length chunk) = base * Z.of_nat (length types)
        /\ (forall t, t ∈ types -> Z.of_nat (count_type t chunk) = base)
        /\ log w' = log w).
Proof.
  intros Hne Hnd Hbase Hcand.
  assert (Hn : 0 < Z.of_nat (length types)) by (destruct types; [done | simpl; lia]).
  eapply returns_impl; [|apply select_types_spec; [done | done | nia]].
  intros selected' w' (extra & counts & picks & Halloc & Hpicks & -> & Hlog).
  pose proof (allocation_total types _ extra counts Hne Hnd Halloc) as Hsum.
  pose proof (allocation_keys types _ extra counts Halloc) as Hkeys.
  destruct Halloc as (Hnde & Hsub & Hlen & Hcounts).
  rewrite Z.mod_mul in Hlen by lia. rewrite Z.div_mul in Hcounts by lia.
  destruct extra as [|e extra]; [|discriminate]. clear Hlen Hsub Hnde.
  assert (Hshape : counts = map (fun t => (t, base)) types).
  { rewrite Hcounts. apply map_ext. intros t.
    destruct (decide (t ∈ [])) as [Hin|]; [by apply elem_of_nil in Hin | done]. }
  clear Hcounts.
  assert (Hno : Forall (fun item => ~ short (eligible types bank) item) counts).
  { rewrite Hshape. apply Forall_forall. intros item Hin.
    apply list_elem_of_fmap in Hin as (t & -> & Hin). unfold short. simpl.
    rewrite candidates_eligible by done. specialize (Hcand t Hin). lia. }
  exists (concat picks). split; [done|].
  destruct (taken_length _ counts picks Hpicks) as [Hle Hlt].
  rewrite Hsum in Hle, Hlt. split; [|split; [|split]].
  - eapply Forall_impl; [exact (taken_from_pool _ counts picks Hpicks)|].
    intros q Hq. unfold eligible in Hq.
    apply list_elem_of_filter in Hq as [? ?]. done.
  - destruct (Z.lt_ge_cases (Z.of_nat (length (concat picks)))
                (base * Z.of_nat (length types))) as [Hless|]; [|lia].
    apply Hlt, Exists_exists in Hless as (item & Hin & Hshort).
    rewrite Forall_forall in Hno. by destruct (Hno item Hin).
  - intros t Hin.
    assert (Hitem : (t, base) ∈ counts).
    { rewrite Hshape. by apply (list_elem_of_fmap_2 (fun t => (t, base))). }
    assert (Hndk : NoDup (map fst counts)) by by rewrite Hkeys.
    pose proof (taken_count_type _ counts picks (t, base) Hpicks Hndk Hitem) as Hc.
    simpl in Hc. rewrite candidates_eligible in Hc by done.
    specialize (Hcand t Hin). lia.
  - rewrite Hlog.
    assert (Hws : shortage_warnings (eligible types bank) counts = []).
    { clear -Hno. unfold shortage_warnings.
      induction Hno as [|item counts Hitem _ IH]; [done|]. simpl. rewrite IH.
      unfold short in Hitem.
      destruct (Z.ltb_spec
        (Z.of_nat (length (candidates_of (eligible types bank) (fst item))))
        (snd item)); [done | done]. }
    by rewrite Hws, app_nil_r.
Qed.

(** A structure of one section: the loop of lines 92-103 runs once, on the
    categories of that section, and line 104 shuffles what it selected. *)
Lemma compose_one_section (bank : list question) (section : string) (total : Z)
    (types : list string) (w : world G) :
  section_types section = Ok types ->
  compose bank [(section, total)] w
  = (selected ← select_types types bank [] total; random_shuffle selected) w.
Proof.
  intros Htypes. unfold compose. cbn [select_all].
  unfold select_section, mbind, M_bind, lift. rewrite Htypes.
  by destruct (select_types types bank [] total w) as [[selected|e] w'].
Qed.


(** X20. The taxonomy of the code has nine LR categories, so for the
    structure [{LR: 9}] and a bank with a candidate in each of them the
    composed exam has exactly 9 questions, each LR category contributing
    exactly 1 (base = 1, remainder = 0), and nothing is logged. *)
Theorem nine_LR_one_per_category (bank : list question) (w : world G) :
  (forall t, t ∈ map fst LR_types -> (1 <= count_type t bank)%nat) ->
  length (map fst LR_types) = 9%nat
  /\ 9 / Z.of_nat (length (map fst LR_types)) = 1
  /\ 9 mod Z.of_nat (length (map fst LR_types)) = 0
  /\ returns (compose bank [("LR", 9)]) w (fun exam w' =>
       length exam = 9%nat
       /\ Forall (fun q => q ∈ bank /\ type q ∈ map fst LR_types) exam
       /\ (forall t, t ∈ map fst LR_types -> count_type t exam = 1%nat)
       /\ log w' = log w).
Proof.
  intros Hcand. split; [done|]. split; [done|]. split; [done|].
  unfold compose. apply returns_bind. cbn [select_all].
  apply returns_bind. unfold select_section. apply returns_bind.
  exists (map fst LR_types), w. split; [done|].
  eapply returns_impl;
    [|apply (even_split (map fst LR_types) bank [] 1 w);
      [done | apply LR_labels_NoDup | lia | intros t Ht; specialize (Hcand t Ht); lia]].
  intros selected w1 (chunk & -> & Hfrom & Hlen & Hcount & Hlog1).
  apply returns_ret. cbn beta.
  eapply returns_impl; [|apply random_shuffle_spec].
  intros exam w' [Hperm Hlog']. simpl in Hperm. split; [|split; [|split]].
  - rewrite (Permutation_length Hperm). simpl in Hlen. lia.
  - by rewrite Hperm.
  - intros t Ht. rewrite (count_type_Permutation t exam chunk Hperm).
    specialize (Hcount t Ht). lia.
  - congruence.
Qed.

(** *** Exceptions come from the structure, not from the bank *)







(** *** A label of both sections *)

Lemma all_equal_length {A : Type} (x : A) (l : list A) :
  Forall (fun y => y = x) l -> l = replicate (length l) x.
Proof. induction 1 as [|y l -> _ IH]; [done|]. simpl. by rewrite <- IH. Qed.

Lemma eligible_lone (types : list string) (q : question) :
  type q ∈ types -> eligible types [q] = [q].
Proof.
  intros Hin. unfold eligible. rewrite filter_cons.
  by destruct (decide (type q ∈ types)).
Qed.

(** In a bank of one record, a section that lists the type of the record
    and asks for at least one question per category takes the record. *)
Lemma lone_record_taken (q : question) (item : string * Z) (chunk : list question)
    (warnings : list string) (types : list string) :
  section_types (fst item) = Ok types -> type q ∈ types ->
  Z.of_nat (length types) <= snd item ->
  section_run [q] item chunk warnings -> chunk = [q].
Proof.
  intros Htypes Hin Htot (types' & extra & counts & picks & Htypes' & Halloc & Hpicks & -> & _).
  rewrite Htypes in Htypes'. injection Htypes' as <-.
  destruct (section_types_known _ types Htypes) as [Hne Hnd].
  pose proof (allocation_keys types _ extra counts Halloc) as Hkeys.
  rewrite eligible_lone in Hpicks by done.
  assert (Hall : Forall (fun y => y = q) (concat picks)).
  { clear -Hpicks. induction Hpicks as [|item picked counts picks [Hsub _] _ IH];
      [constructor|].
    simpl. apply Forall_app. split; [|exact IH].
    apply Forall_forall. intros y Hy. apply (elem_of_submseteq _ _ _ Hy) in Hsub.
    unfold candidates_of in Hsub. apply list_elem_of_filter in Hsub as [_ Hsub].
    by apply list_elem_of_singleton in Hsub. }
  assert (Hn : 0 < Z.of_nat (length types)) by (destruct types; [done | simpl; lia]).
  assert (Hbase : 1 <= snd item / Z.of_nat (length types)).
  { apply Z.div_le_lower_bound; lia. }
  destruct Halloc as (_ & _ & _ & Hcounts).
  set (cnt := if decide (type q ∈ extra)
              then snd item / Z.of_nat (length types) + 1
              else snd item / Z.of_nat (length types)).
  assert (Hitem : (type q, cnt) ∈ counts).
  { rewrite Hcounts. apply list_elem_of_fmap. by exists (type q). }
  assert (Hndk : NoDup (map fst counts)) by by rewrite Hkeys.
  pose proof (taken_count_type _ counts picks _ Hpicks Hndk Hitem) as Hc.
  simpl in Hc.
  assert (Hone : length (candidates_of [q] (type q)) = 1%nat).
  { unfold candidates_of. rewrite filter_cons.
    by destruct (decide (type q = type q)). }
  rewrite Hone in Hc.
  assert (Hlen : length (concat picks) = 1%nat).
  { rewrite <- (count_type_all (type q)).
    - subst cnt. destruct (decide (type q ∈ extra)); lia.
    - eapply Forall_impl; [exact Hall|]. by intros y ->. }
  rewrite (all_equal_length q (concat picks) Hall). by rewrite Hlen.
Qed.

(** C10. "Inference" is a label of the LR table and of the RC table, so a
    record of that type is in the eligible pool of both sections; with the
    default structure and a bank holding one such record, every run of the
    composer selects that record once for LR and once again for RC. *)
Theorem inference_selected_for_both_sections :
  "Inference" ∈ map fst LR_types
  /\ "Inference" ∈ map fst RC_types
  /\ (forall (bank : list question) (q : question),
        q ∈ bank -> type q = "Inference" ->
        q ∈ eligible (map fst LR_types) bank /\ q ∈ eligible (map fst RC_types) bank)
  /\ exists (bank : list question) (structure : list (string * Z)) (q : question),
       NoDup bank /\ q ∈ bank
       /\ map fst structure = ["LR"; "RC"]
       /\ forall w : world G,
            returns (compose bank structure) w (fun exam _ => exam = [q; q]).
Proof.
  assert (Hlr : "Inference" ∈ map fst LR_types).
  { apply (bool_decide_unpack _). vm_compute. exact I. }
  assert (Hrc : "Inference" ∈ map fst RC_types).
  { apply (bool_decide_unpack _). vm_compute. exact I. }
  split; [done|]. split; [done|]. split.
  { intros bank q Hq Hty. unfold eligible. rewrite !list_elem_of_filter, Hty. done. }
  exists [inference_question], DEFAULT_STRUCTURE, inference_question.
  split; [apply NoDup_singleton|]. split; [apply list_elem_of_here|].
  split; [done|]. intros w.
  eapply returns_impl; [|apply compose_spec].
  - intros exam w' (chunks & warnings & Hruns & Hperm & _).
    inversion Hruns as [|item1 c1 w1 rest1 cs1 ws1 Hrun1 Hruns1]; subst.
    inversion Hruns1 as [|item2 c2 w2 rest2 cs2 ws2 Hrun2 Hruns2]; subst.
    inversion Hruns2; subst.
    apply (lone_record_taken inference_question _ _ _ (map fst LR_types)) in Hrun1;
      [|done|done|simpl; lia].
    apply (lone_record_taken inference_question _ _ _ (map fst RC_types)) in Hrun2;
      [|done|done|simpl; lia].
    subst. simpl in Hperm.
    assert (Hall : Forall (fun y => y = inference_question) exam).
    { rewrite Hperm. by repeat constructor. }
    rewrite (all_equal_length _ exam Hall), (Permutation_length Hperm). done.
  - repeat constructor; simpl; auto; lia.
Qed.

End ComposerProperties.

(** ** The composer on concrete banks *)

(** *** Which samples the generator can draw *)

Lemma delete_keeps_others {A : Type} (pool : list A) (j : nat) (x y : A) :
  pool !! j = Some x -> y ∈ pool -> y <> x -> y ∈ delete j pool.
Proof.
  intros Hj Hy Hne. rewrite (delete_Permutation pool j x Hj) in Hy.
  by apply elem_of_cons in Hy as [?|?].
Qed.

Lemma delete_NoDup {A : Type} (pool : list A) (j : nat) (x : A) :
  pool !! j = Some x -> NoDup pool -> NoDup (delete j pool) /\ x ∉ delete j pool.
Proof.
  intros Hj Hnd. rewrite (delete_Permutation pool j x Hj) in Hnd.
  by apply NoDup_cons in Hnd as [? ?].
Qed.

(** Every arrangement of distinct items of a duplicate-free population is
    the sample drawn under some script of draws in range. *)
Lemma draw_sample_script {A : Type} (picked pool : list A) (lines : list string) :
  NoDup pool -> NoDup picked -> (forall x, x ∈ picked -> x ∈ pool) ->
  exists script : list nat,
    length script = length picked /\ in_range (length pool) script
    /\ draw_sample pool (length picked) {| gen := script; log := lines |}
       = (Ok picked, {| gen := []; log := lines |}).
Proof.
  revert pool. induction picked as [|x picked IH]; intros pool Hpool Hpicked Hsub.
  - by exists [].
  - apply NoDup_cons in Hpicked as [Hx Hpicked].
    destruct (proj1 (list_elem_of_lookup pool x) (Hsub x (list_elem_of_here _ _)))
      as [j Hj].
    destruct (delete_NoDup pool j x Hj Hpool) as [Hdel _].
    destruct (IH (delete j pool) Hdel Hpicked) as (script & Hlen & Hrange & Hrun).
    { intros y Hy. apply (delete_keeps_others pool j x y Hj).
      - apply Hsub. by apply list_elem_of_further.
      - intros ->. by destruct Hx. }
    pose proof (lookup_lt_Some pool j x Hj) as Hlt.
    exists (j :: script). split; [simpl; by rewrite Hlen|]. split.
    + split; [done|]. by rewrite length_delete in Hrange by eauto.
    + cbn [length draw_sample]. unfold mbind, M_bind, random_below. simpl.
      rewrite Nat.mod_small by done. rewrite Hj.
      unfold mbind, M_bind. by rewrite Hrun.
Qed.

Lemma draw_sample_returns {A G : Type} `{RandomSource G} (pool : list A) (k : nat)
    (w : world G) :
  exists (picked : list A) (w' : world G), draw_sample pool k w = (Ok picked, w').
Proof.
  revert pool w. induction k as [|k IH]; intros pool w; simpl; [by eexists _, _|].
  unfold mbind, M_bind, random_below.
  destruct (randbelow (length pool) (gen w)) as [j g'].
  destruct (pool !! j) as [x|]; [|by eexists _, _].
  destruct (IH (delete j pool) {| gen := g'; log := log w |}) as (rest & w' & ->).
  by eexists _, _.
Qed.

(** Two scripts of draws in range that give the same sample of a
    duplicate-free population are the same script: scripts and samples
    correspond one to one. *)
Lemma draw_sample_injective {A : Type} (k : nat) (pool : list A)
    (script1 script2 : list nat) (lines : list string) :
  NoDup pool -> length script1 = k -> length script2 = k ->
  in_range (length pool) script1 -> in_range (length pool) script2 ->
  fst (draw_sample pool k {| gen := script1; log := lines |})
  = fst (draw_sample pool k {| gen := script2; log := lines |}) ->
  script1 = script2.
Proof.
  revert pool script1 script2.
  induction k as [|k IH]; intros pool [|j1 s1] [|j2 s2] Hnd Hl1 Hl2 Hr1 Hr2 Hsame;
    try done.
  destruct Hr1 as [Hj1 Hr1], Hr2 as [Hj2 Hr2].
  cbn [draw_sample] in Hsame. unfold mbind, M_bind, random_below in Hsame.
  simpl in Hsame. rewrite !Nat.mod_small in Hsame by done.
  destruct (lookup_lt_is_Some_2 pool j1 Hj1) as [x1 Hx1].
  destruct (lookup_lt_is_Some_2 pool j2 Hj2) as [x2 Hx2].
  rewrite Hx1, Hx2 in Hsame. unfold mbind, M_bind in Hsame.
  destruct (draw_sample_returns (delete j1 pool) k {| gen := s1; log := lines |})
    as (p1 & w1 & E1).
  destruct (draw_sample_returns (delete j2 pool) k {| gen := s2; log := lines |})
    as (p2 & w2 & E2).
  pose proof E1 as E1'. pose proof E2 as E2'.
  rewrite E1, E2 in Hsame. simpl in Hsame. injection Hsame as -> ->.
  assert (j1 = j2) as <- by by apply (NoDup_lookup pool j1 j2 x2).
  f_equal. apply (IH (delete j1 pool)).
  - by apply (delete_NoDup pool j1 x2).
  - by injection Hl1.
  - by injection Hl2.
  - by rewrite length_delete by eauto.
  - by rewrite length_delete by eauto.
  - by rewrite E1', E2'.
Qed.

(** C2. For every section, the composer computes
    [base = floor (total / n)] and [rem = total mod n] for the [n]
    categories of the section, gives [base] slots to every category and one
    more to each category of a sample of [rem] categories drawn without
    replacement from the full category list; the slots add up to [total].
    Which categories have the extra slot is up to the draws: any [rem]
    distinct categories are the sample under some script of draws. *)
Theorem allocation_sums_to_target {G : Type} `{RandomSource G} (section : string)
    (types : list string) (bank selected : list question) (total : Z) (w : world G) :
  section_types section = Ok types ->
  select_section bank selected (section, total) w
  = (counts ← allocate types total;
     pick_all (eligible types bank) counts selected) w
  /\ returns (allocate types total) w (fun counts w' =>
       let n := Z.of_nat (length types) in
       let base := total / n in
       let rem := total mod n in
       (base * n <= total < (base + 1) * n /\ total = base * n + rem)
       /\ (exists extra : list string,
             NoDup extra /\ extra ⊆+ types /\ Z.of_nat (length extra) = rem
             /\ counts = map (fun t => (t, if decide (t ∈ extra)
                                          then base + 1 else base)) types)
       /\ Z.of_nat (length (filter (fun item => snd item = base + 1) counts)) = rem
       /\ total_slots counts = total)
  /\ (forall extra : list string,
        NoDup extra -> extra ⊆+ types ->
        Z.of_nat (length extra) = total mod Z.of_nat (length types) ->
        exists script : list nat,
          returns (allocate types total) (scripted script) (fun counts _ =>
            counts = map (fun t => (t, if decide (t ∈ extra)
                                       then total / Z.of_nat (length types) + 1
                                       else total / Z.of_nat (length types))) types)).
Proof.
  intros Htypes.
  destruct (allocate_per_section section types bank selected total w Htypes)
    as [Hbody Hcounts].
  split; [exact Hbody|]. split; [exact Hcounts|].
  destruct (section_types_known section types Htypes) as [Hne Hnd].
  intros extra Hextra Hsub Hlen.
  destruct (draw_sample_script extra types [] Hnd Hextra) as (script & _ & _ & Hrun).
  { intros x Hx. by apply (elem_of_submseteq extra types). }
  exists script. unfold allocate.
  destruct (Nat.eqb_spec (length types) 0) as [Hz|_].
  { destruct types; [done | discriminate]. }
  apply returns_bind. exists extra, {| gen := []; log := [] |}. split.
  - unfold random_sample. rewrite <- Hlen.
    destruct (Z.ltb_spec (Z.of_nat (length extra)) 0); [lia|].
    pose proof (submseteq_length _ _ Hsub).
    destruct (Z.ltb_spec (Z.of_nat (length types)) (Z.of_nat (length extra))); [lia|].
    simpl. by rewrite Nat2Z.id.
  - apply returns_ret. by apply foldl_increment.
Qed.

(** Every choice of items at distinct positions of the pool, in every
    order, is the sample drawn under some script of draws; the draws of the
    script are used up and what follows it is left. *)
Lemma draw_sample_reach {A : Type} (picked pool : list A) :
  picked ⊆+ pool ->
  exists script : list nat,
    forall (more : list nat) (lines : list string),
      draw_sample pool (length picked) {| gen := script ++ more; log := lines |}
      = (Ok picked, {| gen := more; log := lines |}).
Proof.
  revert pool. induction picked as [|x picked IH]; intros pool Hsub.
  - by exists [].
  - apply submseteq_cons_l in Hsub as (k & Hperm & Hsub).
    assert (Hx : x ∈ pool) by (rewrite Hperm; apply list_elem_of_here).
    apply list_elem_of_lookup in Hx as [j Hj].
    pose proof (delete_Permutation pool j x Hj) as Hdel.
    rewrite Hperm in Hdel at 1. apply Permutation_cons_inv in Hdel.
    rewrite Hdel in Hsub.
    destruct (IH (delete j pool) Hsub) as (script & Hrun).
    pose proof (lookup_lt_Some pool j x Hj) as Hlt.
    exists (j :: script). intros more lines.
    cbn [length draw_sample]. unfold mbind, M_bind, random_below. simpl.
    rewrite Nat.mod_small by done. rewrite Hj.
    unfold mbind, M_bind. by rewrite Hrun.
Qed.

Lemma pick_category_reach (section_questions : list question) (item : string * Z)
    (picked : list question) :
  taken_for section_questions item picked ->
  exists script : list nat,
    forall (more : list nat) (lines : list string),
      pick_category section_questions item {| gen := script ++ more; log := lines |}
      = (Ok picked,
         {| gen := more; log := lines ++ shortage_warnings section_questions [item] |}).
Proof.
  destruct item as [qtype cnt]. unfold taken_for. cbn [fst snd]. intros [Hsub Hlen].
  destruct (draw_sample_reach picked _ Hsub) as (script & Hrun).
  exists script. intros more lines.
  unfold pick_category, shortage_warnings. cbn [flat_map fst snd].
  rewrite app_nil_r.
  set (candidates := candidates_of section_questions qtype) in *.
  assert (Hsample : forall lines',
            random_sample candidates (Z.min cnt (Z.of_nat (length candidates)))
              {| gen := script ++ more; log := lines' |}
            = (Ok picked, {| gen := more; log := lines' |})).
  { intros lines'. unfold random_sample. rewrite <- Hlen.
    destruct (Z.ltb_spec (Z.of_nat (length picked)) 0); [lia|].
    destruct (Z.ltb_spec (Z.of_nat (length candidates)) (Z.of_nat (length picked)));
      [lia|].
    simpl. by rewrite Nat2Z.id. }
  unfold mbind, M_bind.
  destruct (Z.ltb_spec (Z.of_nat (length candidates)) cnt).
  - unfold logging_warning. simpl. by rewrite Hsample.
  - unfold mret, M_ret. by rewrite Hsample, app_nil_r.
Qed.

Lemma pick_all_reach (section_questions : list question) (counts : list (string * Z))
    (picks : list (list question)) :
  Forall2 (taken_for section_questions) counts picks ->
  exists script : list nat,
    forall (more : list nat) (lines : list string) (selected : list question),
      pick_all section_questions counts selected {| gen := script ++ more; log := lines |}
      = (Ok (selected ++ concat picks),
         {| gen := more; log := lines ++ shortage_warnings section_questions counts |}).
Proof.
  induction 1 as [|item picked counts picks Htaken _ (script & Hrun)].
  - exists []. intros more lines selected. simpl. by rewrite !app_nil_r.
  - destruct (pick_category_reach _ _ _ Htaken) as (script1 & Hrun1).
    exists (script1 ++ script). intros more lines selected.
    cbn [pick_all]. unfold mbind, M_bind.
    rewrite <- app_assoc, Hrun1, Hrun.
    rewrite (shortage_warnings_cons _ item counts).
    cbn [concat]. by rewrite !app_assoc.
Qed.

(** C3. In the loop over the allocated counts, a category with fewer
    candidates than slots gets a warning that names the category, the
    needed count and the available count, all its candidates are taken and
    the loop goes on; a category with enough candidates gets exactly its
    count of records, taken at distinct positions of its candidate list.
    Which records are taken is up to the draws: every choice of that many
    candidates at distinct positions, in every order, is what the loop
    takes under some script of draws. *)
Theorem shortage_takes_all_available {G : Type} `{RandomSource G}
    (section_questions : list question) (counts : list (string * Z))
    (selected : list question) (w : world G) :
  Forall (fun item => 0 <= snd item) counts ->
  returns (pick_all section_questions counts selected) w (fun selected' w' =>
    exists (picks : list (list question)) (warnings : list (list string)),
      selected' = selected ++ concat picks
      /\ log w' = log w ++ concat warnings
      /\ Forall3 (fun item picked warns =>
            let candidates := candidates_of section_questions (fst item) in
            picked ⊆+ candidates
            /\ (Z.of_nat (length candidates) < snd item ->
                picked ≡ₚ candidates
                /\ warns = ["Not enough '" +:+ fst item +:+ "' questions: needed "
                            +:+ PyStr.str_of_Z (snd item) +:+ ", available "
                            +:+ PyStr.str_of_nat (length candidates)])
            /\ (snd item <= Z.of_nat (length candidates) ->
                Z.of_nat (length picked) = snd item /\ warns = []))
          counts picks warnings)
  /\ (forall picks : list (list question),
        Forall2 (fun item picked =>
            let candidates := candidates_of section_questions (fst item) in
            picked ⊆+ candidates
            /\ Z.of_nat (length picked)
               = Z.min (snd item) (Z.of_nat (length candidates)))
          counts picks ->
        exists script : list nat,
          returns (pick_all section_questions counts selected) (scripted script)
            (fun selected' _ => selected' = selected ++ concat picks)).
Proof.
  intros Hcounts. split; [by apply pick_all_shortage|].
  intros picks Hpicks.
  destruct (pick_all_reach section_questions counts picks Hpicks) as (script & Hrun).
  exists script. unfold scripted. rewrite <- (app_nil_r script).
  eexists _, _. split; [apply Hrun | done].
Qed.

Lemma allocation_sums_to_target_witness :
  section_types "LR" = Ok (map fst LR_types)
  /\ returns (allocate (map fst LR_types) 25) (scripted [3; 1; 4; 1; 5; 9; 2]%nat)
       (fun counts _ => total_slots counts = 25).
Proof.
  split; [reflexivity|].
  destruct (allocation_sums_to_target "LR" (map fst LR_types) [] [] 25
              (scripted [3; 1; 4; 1; 5; 9; 2]%nat) eq_refl) as (_ & Halloc & _).
  eapply returns_impl; [|exact Halloc].
  intros counts w' (_ & _ & _ & Hsum). exact Hsum.
Defined.

Lemma shortage_takes_all_available_witness :
  Forall (fun item : string * Z => 0 <= snd item) [("Strengthen", 2); ("Weaken", 1)]
  /\ returns (pick_all (LR_bank 1) [("Strengthen", 2); ("Weaken", 1)] [])
       (scripted [7; 7]%nat)
       (fun selected' w' =>
          length selected' = 2%nat
          /\ log w' = ["Not enough 'Strengthen' questions: needed 2, available 1"]).
Proof.
  assert (Hcounts : Forall (fun item : string * Z => 0 <= snd item)
                      [("Strengthen", 2); ("Weaken", 1)]).
  { repeat constructor; simpl; lia. }
  split; [exact Hcounts|].
  eapply returns_impl;
    [|exact (proj1 (shortage_takes_all_available (LR_bank 1)
               [("Strengthen", 2); ("Weaken", 1)] [] (scripted [7; 7]%nat) Hcounts))].
  intros selected' w' (picks & warnings & -> & -> & Hall).
  inversion Hall as [|i1 p1 w1 r1 ps1 ws1 H1 Hall1]; subst.
  inversion Hall1 as [|i2 p2 w2 r2 ps2 ws2 H2 Hall2]; subst.
  inversion Hall2; subst. cbn zeta in H1, H2.
  destruct H1 as (_ & [Hp1 ->] & _); [vm_compute; reflexivity|].
  destruct H2 as (_ & _ & [Hl2 ->]); [vm_compute; discriminate|].
  split; [|reflexivity].
  cbn [concat fst snd app] in *.
  rewrite app_nil_r, length_app, (Permutation_length Hp1).
  assert (Hone : length (candidates_of (LR_bank 1) "Strengthen") = 1%nat)
    by reflexivity.
  rewrite Hone. lia.
Defined.

Lemma section_never_exceeds_target_witness :
  well_formed DEFAULT_STRUCTURE
  /\ returns (generate_exam_text (LR_bank 2) DEFAULT_STRUCTURE) (scripted [5; 8; 13]%nat)
       (fun _ _ => True).
Proof.
  assert (Hwf : well_formed DEFAULT_STRUCTURE).
  { repeat constructor; simpl; auto; lia. }
  split; [exact Hwf|].
  exact (proj2 (section_never_exceeds_target (LR_bank 2) DEFAULT_STRUCTURE
                  (scripted [5; 8; 13]%nat) Hwf)).
Defined.

Lemma nine_LR_one_per_category_witness :
  (forall t, t ∈ map fst LR_types -> (1 <= count_type t (LR_bank 2))%nat)
  /\ returns (compose (LR_bank 2) [("LR", 9)]) (scripted [2; 7; 1; 8; 2; 8]%nat)
       (fun exam _ => length exam = 9%nat).
Proof.
  assert (Hcand : forall t, t ∈ map fst LR_types -> (1 <= count_type t (LR_bank 2))%nat).
  { intros t Ht.
    repeat (apply elem_of_cons in Ht as [->|Ht]; [vm_compute; lia|]).
    by apply elem_of_nil in Ht. }
  split; [exact Hcand|].
  destruct (nine_LR_one_per_category (LR_bank 2) (scripted [2; 7; 1; 8; 2; 8]%nat) Hcand)
    as (_ & _ & _ & Hrun).
  eapply returns_impl; [|exact Hrun]. by intros exam w' [Hlen _].
Defined.


(** With the nine LR categories of the code, three candidates in each and
    the structure [{LR: 9}], the exam does not hold three records of each
    category. *)
Lemma three_per_category_fails :
  (forall t, t ∈ map fst LR_types -> (3 <= count_type t (LR_bank 3))%nat)
  /\ length (map fst LR_types) <> 3%nat
  /\ ~ returns (compose (LR_bank 3) [("LR", 9)]) (scripted []%nat)
        (fun exam _ =>
           length exam = 9%nat
           /\ forall t, t ∈ map fst LR_types -> count_type t exam = 3%nat).
Proof.
  split; [|split].
  - intros t Ht.
    repeat (apply elem_of_cons in Ht as [->|Ht]; [vm_compute; lia|]).
    by apply elem_of_nil in Ht.
  - vm_compute. discriminate.
  - intros (exam & w' & Hrun & _ & Hcount).
    specialize (Hcount "Strengthen" (list_elem_of_here _ _)).
    vm_compute in Hrun. injection Hrun as <- _.
    vm_compute in Hcount. discriminate.
Qed.

(** ** JSON text and the store *)

Section Scanning.
Context `{Interpreter}.

Lemma append_assoc (a b c : string) : (a +:+ b) +:+ c = a +:+ (b +:+ c).
Proof.
  induction a as [|x a IH]; [done|]. by rewrite !append_String, IH.
Qed.

Lemma length_append (a b : string) :
  String.length (a +:+ b) = (String.length a + String.length b)%nat.
Proof. induction a as [|x a IH]; [done|]. rewrite append_String. simpl. by rewrite IH. Qed.

Lemma scan_string_escape_char (c : ascii) (tail : string) (acc : list N) :
  Json.scan_string (Json.escape_char c +:+ tail) acc
  = Json.scan_string tail (acc ++ [PyStr.code c]).
Proof. destruct c as [[] [] [] [] [] [] [] []]; reflexivity. Qed.

Lemma scan_string_escape (s tail : string) (acc : list N) :
  Json.scan_string (Json.escape s +:+ Json.quote +:+ tail) acc
  = Some (acc ++ Json.codes s, tail).
Proof.
  revert acc. induction s as [|c s IH]; intros acc.
  - simpl. by rewrite app_nil_r.
  - cbn [Json.escape Json.codes]. rewrite append_assoc, scan_string_escape_char, IH.
    by rewrite <- app_assoc.
Qed.

Lemma scan_once_dump_str (fuel depth : nat) (s tail : string) :
  Json.scan_once (S fuel) depth (Json.dump_str s +:+ tail)
  = Ok (Json.Str (Json.codes s), tail).
Proof.
  unfold Json.dump_str. rewrite !append_assoc.
  change (Json.quote +:+ Json.escape s +:+ Json.quote +:+ tail)
    with (String (ascii_of_nat 34) (Json.escape s +:+ Json.quote +:+ tail)).
  cbn [Json.scan_once]. change (PyStr.code (ascii_of_nat 34) =? 34)%N with true.
  cbn iota. change (@nil N) with (@nil N ++ []) at 1.
  by rewrite scan_string_escape.
Qed.

Lemma skip_ws_quote (x : string) : Json.skip_ws (Json.quote +:+ x) = Json.quote +:+ x.
Proof. reflexivity. Qed.

(** One member [key: value] of a record, up to the separator after it. *)
Lemma scan_members_member (fuel depth : nat) (key val more : string)
    (acc : list (list N * Json.value)) :
  Json.scan_members (S (S fuel)) depth
    (Json.dump_str key +:+ ": " +:+ Json.dump_str val +:+ more) acc
  = match Json.skip_ws more with
    | EmptyString => Raise JSONDecodeError
    | String c r3 =>
        if (PyStr.code c =? 125)%N
        then Ok (Json.Obj (Json.dict_set (Json.codes key) (Json.Str (Json.codes val)) acc), r3)
        else if (PyStr.code c =? 44)%N
             then Json.scan_members (S fuel) depth (Json.skip_ws r3)
                    (Json.dict_set (Json.codes key) (Json.Str (Json.codes val)) acc)
             else Raise JSONDecodeError
    end.
Proof.
  unfold Json.dump_str at 1. rewrite !append_assoc.
  change (Json.quote +:+ Json.escape key +:+ Json.quote +:+ ": " +:+ Json.dump_str val +:+ more)
    with (String (ascii_of_nat 34)
            (Json.escape key +:+ Json.quote +:+ ": " +:+ Json.dump_str val +:+ more)).
  cbn [Json.scan_members].
  change (PyStr.code (ascii_of_nat 34) =? 34)%N with true. cbn [negb].
  change (@nil N) with (@nil N ++ []) at 1. rewrite scan_string_escape.
  change (Json.skip_ws (": " +:+ Json.dump_str val +:+ more))
    with (String ":" (" " +:+ Json.dump_str val +:+ more)).
  cbn iota. change (PyStr.code ":" =? 58)%N with true. cbn [negb].
  change (Json.skip_ws (" " +:+ Json.dump_str val +:+ more))
    with (Json.dump_str val +:+ more).
  rewrite scan_once_dump_str. reflexivity.
Qed.

Lemma scan_once_open_record (fuel depth : nat) (key x : string) :
  Json.scan_once (S fuel) (S depth)
    ("{" +:+ newline +:+ "    " +:+ Json.dump_str key +:+ x)
  = Json.scan_members fuel depth (Json.dump_str key +:+ x) [].
Proof. reflexivity. Qed.

Lemma scan_members_next (fuel depth : nat) (key val key' x : string)
    (acc : list (list N * Json.value)) :
  Json.scan_members (S (S fuel)) depth
    (Json.dump_str key +:+ ": " +:+ Json.dump_str val +:+ "," +:+ newline +:+ "    "
     +:+ Json.dump_str key' +:+ x) acc
  = Json.scan_members (S fuel) depth (Json.dump_str key' +:+ x)
      (Json.dict_set (Json.codes key) (Json.Str (Json.codes val)) acc).
Proof. rewrite scan_members_member. reflexivity. Qed.

Lemma scan_members_last (fuel depth : nat) (key val tail : string)
    (acc : list (list N * Json.value)) :
  Json.scan_members (S (S fuel)) depth
    (Json.dump_str key +:+ ": " +:+ Json.dump_str val +:+ newline +:+ "  }" +:+ tail) acc
  = Ok (Json.Obj (Json.dict_set (Json.codes key) (Json.Str (Json.codes val)) acc), tail).
Proof. rewrite scan_members_member. reflexivity. Qed.

Lemma scan_once_dump_record (fuel depth : nat) (q : question) (tail : string) :
  Json.scan_once (5 + fuel) (S depth) (Json.dump_record q +:+ tail)
  = Ok (Json.record_value q, tail).
Proof.
  unfold Json.dump_record. rewrite !append_assoc.
  change (5 + fuel)%nat with (S (S (S (S (S fuel))))).
  rewrite scan_once_open_record, !scan_members_next, scan_members_last.
  reflexivity.
Qed.

Lemma scan_items_unfold (fuel depth : nat) (s : string) (acc : list Json.value) :
  Json.scan_items (S fuel) depth s acc
  = match Json.scan_once fuel depth s with
    | Raise e => Raise e
    | Ok (v, r) =>
        match Json.skip_ws r with
        | EmptyString => Raise JSONDecodeError
        | String c r' =>
            if (PyStr.code c =? 93)%N then Ok (Json.Arr (acc ++ [v]), r')
            else if (PyStr.code c =? 44)%N
                 then Json.scan_items fuel depth (Json.skip_ws r') (acc ++ [v])
                 else Raise JSONDecodeError
        end
    end.
Proof. reflexivity. Qed.

Lemma skip_ws_dump_items (q : question) (rest : list question) (x : string) :
  Json.skip_ws (newline +:+ "  " +:+ Json.dump_items q rest +:+ x)
  = Json.dump_items q rest +:+ x.
Proof. destruct rest; reflexivity. Qed.

Lemma scan_items_dump (rest : list question) (q : question) (acc : list Json.value)
    (fuel depth : nat) (tail : string) :
  Json.scan_items (6 + length rest + fuel) (S depth)
    (Json.dump_items q rest +:+ newline +:+ "]" +:+ tail) acc
  = Ok (Json.Arr (acc ++ map Json.record_value (q :: rest)), tail).
Proof.
  revert q acc. induction rest as [|q' rest IH]; intros q acc.
  - change (6 + length [] + fuel)%nat with (S (5 + fuel)).
    cbn [Json.dump_items]. rewrite scan_items_unfold, scan_once_dump_record.
    reflexivity.
  - change (6 + length (q' :: rest) + fuel)%nat
      with (S (5 + (1 + length rest + fuel))).
    cbn [Json.dump_items]. rewrite !append_assoc.
    rewrite scan_items_unfold, scan_once_dump_record.
    change (Json.skip_ws ("," +:+ newline +:+ "  " +:+ Json.dump_items q' rest
                          +:+ newline +:+ "]" +:+ tail))
      with (String "," (newline +:+ "  " +:+ Json.dump_items q' rest
                        +:+ newline +:+ "]" +:+ tail)).
    cbn iota. change (PyStr.code "," =? 93)%N with false.
    change (PyStr.code "," =? 44)%N with true. cbn iota.
    rewrite skip_ws_dump_items.
    change (5 + (1 + length rest + fuel))%nat with (6 + length rest + fuel)%nat.
    rewrite IH. cbn [map]. by rewrite <- app_assoc.
Qed.

Lemma length_dump_items (q : question) (rest : list question) :
  (length rest < String.length (Json.dump_items q rest))%nat.
Proof.
  revert q. induction rest as [|q' rest IH]; intros q; cbn [Json.dump_items].
  - unfold Json.dump_record. rewrite length_append. simpl. lia.
  - rewrite !length_append. specialize (IH q'). simpl. lia.
Qed.

Lemma append_Empty_r (a : string) : a +:+ EmptyString = a.
Proof. induction a as [|x a IH]; [done|]. by rewrite append_String, IH. Qed.

Lemma skip_ws_dumps (bank : list question) (tail : string) :
  Json.skip_ws (Json.dumps bank +:+ tail) = Json.dumps bank +:+ tail.
Proof. destruct bank; reflexivity. Qed.

(** The scanner on the text of a bank and whatever follows it. *)
Lemma scan_once_dumps (bank : list question) (fuel depth : nat) (tail : string) :
  Json.scan_once (S (6 + length bank + fuel)) (S (S depth)) (Json.dumps bank +:+ tail)
  = Ok (Json.bank_value bank, tail).
Proof.
  destruct bank as [|q rest]; [reflexivity|].
  replace (6 + length (q :: rest) + fuel)%nat with (6 + length rest + S fuel)%nat
    by (cbn [length]; lia).
  unfold Json.dumps, Json.bank_value. rewrite !append_assoc.
  change ("[" +:+ newline +:+ "  " +:+ Json.dump_items q rest +:+ newline +:+ "]" +:+ tail)
    with (String "[" (newline +:+ "  " +:+ Json.dump_items q rest
                      +:+ newline +:+ "]" +:+ tail)).
  cbn [Json.scan_once]. change (PyStr.code "[" =? 34)%N with false.
  change (PyStr.code "[" =? 123)%N with false.
  change (PyStr.code "[" =? 91)%N with true. cbn iota.
  rewrite skip_ws_dump_items.
  assert (Hhead : exists x, Json.dump_items q rest +:+ newline +:+ "]" +:+ tail
                            = String "{" x).
  { destruct rest; eexists; reflexivity. }
  destruct Hhead as [x Hx]. rewrite Hx at 1.
  change (PyStr.code "{" =? 93)%N with false. cbn iota.
  by rewrite scan_items_dump.
Qed.

Lemma length_dumps (bank : list question) :
  (length bank + 2 <= String.length (Json.dumps bank))%nat.
Proof.
  destruct bank as [|q rest]; [simpl; lia|].
  unfold Json.dumps. rewrite !length_append.
  pose proof (length_dump_items q rest). simpl. lia.
Qed.

(** What [json.dump] writes for a bank, [json.loads] reads back as the
    same list of records. *)
Lemma loads_dumps (bank : list question) :
  Json.loads (Json.dumps bank) = Ok (Json.bank_value bank).
Proof.
  unfold Json.loads.
  pose proof recursion_room_records as Hroom.
  destruct recursion_room as [|[|depth]]; [lia | lia |]. clear Hroom.
  destruct bank as [|q rest]; [reflexivity|].
  pose proof (length_dumps (q :: rest)) as Hlen. cbn [length] in Hlen.
  rewrite <- (append_Empty_r (Json.dumps (q :: rest))) at 2.
  rewrite skip_ws_dumps.
  replace (2 * String.length (Json.dumps (q :: rest)) + 2)%nat
    with (S (6 + length (q :: rest)
             + (2 * String.length (Json.dumps (q :: rest)) - 6 - length rest)))
    by (cbn [length]; lia).
  by rewrite scan_once_dumps.
Qed.

Lemma code_below_256 (c : ascii) : (PyStr.code c <? 256)%N = true.
Proof. destruct c as [[] [] [] [] [] [] [] []]; reflexivity. Qed.

Lemma of_codes_codes (s : string) : Json.of_codes (Json.codes s) = Some s.
Proof.
  induction s as [|c s IH]; [done|].
  cbn [Json.codes Json.of_codes]. rewrite code_below_256, IH.
  unfold PyStr.code. by rewrite ascii_N_embedding.
Qed.

Lemma record_of_record_value (q : question) :
  Json.record_of (Json.record_value q) = Some q.
Proof.
  destruct q as [t ty src]. unfold Json.record_of, Json.record_value.
  change (Json.get_field _ (Json.codes "text")) with (Json.of_codes (Json.codes t)).
  change (Json.get_field _ (Json.codes "type")) with (Json.of_codes (Json.codes ty)).
  change (Json.get_field _ (Json.codes "source")) with (Json.of_codes (Json.codes src)).
  by rewrite !of_codes_codes.
Qed.

Lemma records_of_bank_value (bank : list question) :
  Json.records_of (Json.bank_value bank) = Some bank.
Proof.
  unfold Json.records_of, Json.bank_value.
  induction bank as [|q bank IH]; [done|].
  cbn [map Json.records_of_items]. by rewrite record_of_record_value, IH.
Qed.

(** *** The fuel of the scanner is never used up *)












(** *** What the scanner raises *)



















(** *** Texts that the scanner rejects *)






















(** *** Texts on which the scanner raises something else *)






End Scanning.

Section StoreProperties.
Context {G : Type} `{RandomSource G} `{Interpreter}.

(** A store whose bytes are not UTF-8 ends the start-up with an exception:
    only [JSONDecodeError] is caught. *)
Lemma load_bank_undecodable (w : world G) :
  load_bank Undecodable w = (Raise UnicodeDecodeError, w).
Proof. reflexivity. Qed.


(** C8. For every bank, [save_bank] followed by the start-up load gives
    back the same records (text, type and source of each), in the same
    order, and so the same set of records. *)
Theorem save_then_load_roundtrip (bank : list question) (w : world G) :
  exists v : Json.value,
    load_bank (save_bank bank) w = (Ok v, w)
    /\ Json.records_of v = Some bank
    /\ forall bank' : list question, Json.records_of v = Some bank' -> bank' ≡ₚ bank.
Proof.
  exists (Json.bank_value bank). split; [|split].
  - unfold load_bank, save_bank. by rewrite loads_dumps.
  - apply records_of_bank_value.
  - rewrite records_of_bank_value. by intros bank' [= <-].
Qed.

End StoreProperties.

(** The start-up on concrete stores, under [cpython_defaults]. *)
Section StoreExamples.
#[local] Existing Instance cpython_defaults.



End StoreExamples.

(** ** Ingestion *)

Lemma existsb_same_text (bank : list question) (t : string) :
  existsb (fun e => String.eqb (text e) t) bank = true <-> t ∈ map text bank.
Proof.
  rewrite existsb_exists, list_elem_of_fmap. split.
  - intros (e & Hin & Heq). apply String.eqb_eq in Heq. exists e.
    split; [done | by apply list_elem_of_In].
  - intros (e & -> & Hin). exists e.
    split; [by apply list_elem_of_In | apply String.eqb_refl].
Qed.

Lemma add_text_duplicate (bank : list question) (flashes : list string)
    (filename t : string) :
  t ∈ map text bank ->
  add_text bank flashes filename t
  = (bank, flashes ++ ["Duplicate " +:+ filename +:+ "; skipped."]).
Proof.
  intros Hin. unfold add_text. apply existsb_same_text in Hin. by rewrite Hin.
Qed.

Lemma add_text_new (bank : list question) (flashes : list string)
    (filename t : string) :
  t ∉ map text bank ->
  add_text bank flashes filename t
  = (bank ++ [{| text := t; type := classify_question t; source := filename |}],
     flashes ++ ["Ingested " +:+ filename +:+ " as " +:+ classify_question t]).
Proof.
  intros Hnotin. unfold add_text.
  destruct (existsb _ bank) eqn:E; [|done].
  apply existsb_same_text in E. by destruct Hnotin.
Qed.

Lemma add_text_NoDup (bank : list question) (flashes : list string)
    (filename t : string) :
  NoDup (map text bank) -> NoDup (map text (fst (add_text bank flashes filename t))).
Proof.
  intros Hnd. destruct (decide (t ∈ map text bank)) as [Hin|Hnotin].
  - by rewrite add_text_duplicate.
  - rewrite add_text_new by done. simpl. rewrite map_app. simpl.
    apply NoDup_app. split; [done|]. split; [|apply NoDup_singleton].
    intros x Hx Hx'. apply list_elem_of_singleton in Hx'. by subst.
Qed.

Lemma ingest_NoDup (state : list question * list string) (upload : string * string) :
  NoDup (map text (fst state)) -> NoDup (map text (fst (ingest state upload))).
Proof.
  destruct state as [bank flashes], upload as [filename t]. simpl. intros Hnd.
  destruct (PyStr.strip t); [done|]. by apply add_text_NoDup.
Qed.

Lemma ingest_all_NoDup (uploads : list (string * string)) (bank : list question)
    (flashes : list string) :
  NoDup (map text bank) -> NoDup (map text (fst (ingest_all bank flashes uploads))).
Proof.
  unfold ingest_all.
  change bank with (fst (bank, flashes)) at 1. generalize (bank, flashes) as state.
  induction uploads as [|upload uploads IH]; intros state Hnd; simpl; [done|].
  apply IH. by apply ingest_NoDup.
Qed.

(** C5. Adding a text that a record of the bank already has leaves the
    bank as it is and flashes the duplicate message; a text that no record
    has (texts compared as they are, white space included) is appended.
    Adding the same text twice to a bank with distinct texts leaves exactly
    one record for it, the second add being the duplicate; and the texts of
    the bank stay distinct through every batch of uploads, from the empty
    bank on. *)
Theorem add_text_keeps_texts_distinct (bank : list question) (flashes : list string)
    (filename filename' t : string) :
  (t ∈ map text bank ->
     add_text bank flashes filename t
     = (bank, flashes ++ ["Duplicate " +:+ filename +:+ "; skipped."]))
  /\ (t ∉ map text bank ->
     add_text bank flashes filename t
     = (bank ++ [{| text := t; type := classify_question t; source := filename |}],
        flashes ++ ["Ingested " +:+ filename +:+ " as " +:+ classify_question t]))
  /\ (NoDup (map text bank) ->
     let once := add_text bank flashes filename t in
     let twice := add_text (fst once) (snd once) filename' t in
     fst twice = fst once
     /\ snd twice = snd once ++ ["Duplicate " +:+ filename' +:+ "; skipped."]
     /\ length (filter (fun e => text e = t) (fst twice)) = 1%nat
     /\ NoDup (map text (fst twice)))
  /\ (forall uploads : list (string * string),
       NoDup (map text bank) ->
       NoDup (map text (fst (ingest_all bank flashes uploads))))
  /\ (forall uploads : list (string * string),
       NoDup (map text (fst (ingest_all [] flashes uploads)))).
Proof.
  split; [apply add_text_duplicate|]. split; [apply add_text_new|].
  split; [|split].
  - intros Hnd. cbn zeta.
    assert (Hin : t ∈ map text (fst (add_text bank flashes filename t))).
    { destruct (decide (t ∈ map text bank)) as [Hin|Hnotin].
      - by rewrite add_text_duplicate.
      - rewrite add_text_new by done. simpl. rewrite map_app.
        apply elem_of_app. right. apply list_elem_of_here. }
    pose proof (add_text_NoDup bank flashes filename t Hnd) as Hnd1.
    rewrite (add_text_duplicate _ _ filename' t Hin). simpl.
    split; [done|]. split; [done|]. split; [|done].
    revert Hin Hnd1. generalize (fst (add_text bank flashes filename t)) as b.
    induction b as [|e b IH]; simpl; intros Hin Hnd1.
    + by apply elem_of_nil in Hin.
    + apply NoDup_cons in Hnd1 as [Hnotin Hnd1]. rewrite filter_cons.
      destruct (decide (text e = t)) as [Heq|Hne].
      * simpl. f_equal. rewrite Heq in Hnotin.
        clear -Hnotin. induction b as [|e' b IH]; [done|].
        simpl in Hnotin. apply not_elem_of_cons in Hnotin as [Hne Hnotin].
        rewrite filter_cons. destruct (decide (text e' = t)); [congruence|].
        by apply IH.
      * apply elem_of_cons in Hin as [Heq|Hin]; [congruence|]. by apply IH.
  - intros uploads. apply ingest_all_NoDup.
  - intros uploads. apply ingest_all_NoDup. constructor.
Qed.

Lemma add_text_keeps_texts_distinct_witness :
  let t := "Which one would most weaken the argument?" in
  let once := add_text [] [] "a.txt" t in
  let twice := add_text (fst once) (snd once) "b.txt" t in
  fst twice = [{| text := t; type := "Weaken"; source := "a.txt" |}]
  /\ snd twice = ["Ingested a.txt as Weaken"; "Duplicate b.txt; skipped."]
  /\ fst (add_text (fst once) (snd once) "c.txt" (t +:+ " "))
     = [{| text := t; type := "Weaken"; source := "a.txt" |};
        {| text := t +:+ " "; type := "Weaken"; source := "c.txt" |}].
Proof.
  cbn zeta.
  destruct (add_text_keeps_texts_distinct [] [] "a.txt" "b.txt"
              "Which one would most weaken the argument?")
    as (_ & Hnew & Htwice & _).
  destruct (Htwice (NoDup_nil_2 : NoDup (map text []))) as (Hb & Hf & _).
  rewrite Hb, Hf, Hnew by apply not_elem_of_nil.
  split; [reflexivity|]. split; [reflexivity|].
  reflexivity.
Defined.

(* ================================================================== *)
(** * Further properties of the code *)

(** ** File names *)

Lemma contains_cons (sep c : ascii) (s : string) :
  PyStr.contains (String sep EmptyString) (String c s)
  = Ascii.eqb sep c || PyStr.contains (String sep EmptyString) s.
Proof. simpl. by destruct (Ascii.eqb sep c). Qed.

Lemma rsplit1_spec (sep : ascii) (s : string) :
  if PyStr.contains (String sep EmptyString) s
  then exists stem ext : string,
         s = stem +:+ String sep ext
         /\ PyStr.contains (String sep EmptyString) ext = false
         /\ rsplit1 sep s = [stem; ext]
  else rsplit1 sep s = [s].
Proof.
  induction s as [|c s IH]; [reflexivity|].
  rewrite contains_cons. cbn [rsplit1].
  destruct (PyStr.contains (String sep EmptyString) s) eqn:Hs.
  - destruct IH as (stem & ext & -> & Hext & ->). rewrite orb_true_r.
    by exists (String c stem), ext.
  - rewrite IH, orb_false_r. rewrite (Ascii.eqb_sym sep c).
    destruct (Ascii.eqb_spec c sep) as [->|Hne]; [|done].
    by exists EmptyString, s.
Qed.

Lemma rsplit1_last (sep : ascii) (stem ext : string) :
  PyStr.contains (String sep EmptyString) ext = false ->
  rsplit1 sep (stem +:+ String sep ext) = [stem; ext].
Proof.
  intros Hext. induction stem as [|c stem IH].
  - rewrite append_Empty. cbn [rsplit1].
    pose proof (rsplit1_spec sep ext) as Hs. rewrite Hext in Hs. rewrite Hs.
    by rewrite Ascii.eqb_refl.
  - rewrite append_String. cbn [rsplit1]. by rewrite IH.
Qed.

(** X1. [allowed_file] accepts exactly the names that end in a dot and an
    extension without a dot which, lower-cased, is png, jpg, jpeg or txt:
    only what follows the last dot counts, in any letter case, and a name
    without a dot is refused. *)
Theorem allowed_file_last_extension (filename : string) :
  allowed_file filename = true
  <-> exists stem ext : string,
        filename = stem +:+ "." +:+ ext /\ allowed_extension ext.
Proof.
  unfold allowed_file, allowed_extension. split.
  - intros Hallowed. apply andb_true_iff in Hallowed as [Hdot Hext].
    pose proof (rsplit1_spec "."%char filename) as Hsplit.
    rewrite Hdot in Hsplit. destruct Hsplit as (stem & ext & -> & Hnodot & Hsplit).
    rewrite Hsplit in Hext. simpl in Hext. apply bool_decide_eq_true in Hext.
    exists stem, ext. split; [done|]. split; [|done].
    intros Hocc. apply contains_spec in Hocc. congruence.
  - intros (stem & ext & -> & Hnodot & Hext).
    assert (Hnone : PyStr.contains "." ext = false).
    { destruct (PyStr.contains "." ext) eqn:E; [|done].
      apply contains_spec in E. by destruct Hnodot. }
    apply andb_true_iff. split.
    + apply contains_spec. by exists stem, ext.
    + change ("." +:+ ext) with (String "."%char ext).
      rewrite rsplit1_last by done. simpl. by apply bool_decide_eq_true.
Qed.

(** ** More on the classifier *)

Lemma scan_types_Some (items : keyword_table) (lc_text qtype : string) :
  scan_types items lc_text = Some qtype ->
  exists (pre post : keyword_table) (keywords : list string),
    items = pre ++ (qtype, keywords) :: post
    /\ Forall (fun item => ~ category_matches (snd item) lc_text) pre
    /\ category_matches keywords lc_text.
Proof.
  induction items as [|[q kws] rest IH]; [done|]. simpl.
  destruct (any_keyword kws lc_text) eqn:E.
  - intros [= <-]. exists [], rest, kws. split; [done|].
    split; [constructor | by apply any_keyword_spec].
  - intros Hrest. destruct (IH Hrest) as (pre & post & keywords & -> & Hpre & Hkw).
    exists ((q, kws) :: pre), post, keywords. split; [done|]. split; [|done].
    constructor; [|done]. simpl. intros Hm. apply any_keyword_spec in Hm. congruence.
Qed.

Lemma taxonomy_labels :
  Forall (fun item => fst item <> "Unknown" /\ fst item <> EmptyString) ordered_taxonomy.
Proof. repeat constructor; simpl; discriminate. Qed.

(** X2. The result of [classify_question] is "Unknown" or a label of the
    LR or RC table, and "Unknown" exactly when no keyword of any category
    occurs in the lower-cased text; it is never the empty string. *)
Theorem classify_question_range (text' : string) :
  (classify_question text' = "Unknown"
   <-> Forall (fun item => ~ category_matches (snd item) (PyStr.lower text'))
         ordered_taxonomy)
  /\ (classify_question text' = "Unknown"
      \/ classify_question text' ∈ map fst LR_types ++ map fst RC_types)
  /\ classify_question text' <> EmptyString.
Proof.
  rewrite classify_question_scan.
  destruct (scan_types ordered_taxonomy (PyStr.lower text')) as [qtype|] eqn:E;
    cbn [default from_option id].
  - destruct (scan_types_Some _ _ _ E) as (pre & post & keywords & Hsplit & Hpre & Hkw).
    assert (Hin : (qtype, keywords) ∈ ordered_taxonomy).
    { rewrite Hsplit. apply elem_of_app. right. apply list_elem_of_here. }
    pose proof taxonomy_labels as Hlabels. rewrite Forall_forall in Hlabels.
    destruct (Hlabels _ Hin) as [Hunknown Hempty]. cbn [fst] in Hunknown, Hempty.
    split; [|split; [|done]].
    + split; [done|]. intros Hnone. apply scan_types_None in Hnone. congruence.
    + right. rewrite <- map_app. fold ordered_taxonomy.
      by apply (list_elem_of_fmap_2 fst ordered_taxonomy (qtype, keywords)).
  - split; [|split; [by left | done]].
    split; [intros _; by apply scan_types_None | done].
Qed.

Lemma occurs_in_trans (kw a b : string) :
  PyStr.occurs_in kw a -> PyStr.occurs_in a b -> PyStr.occurs_in kw b.
Proof.
  intros (x & y & ->) (u & v & ->). exists (u +:+ x), (y +:+ v).
  by rewrite !append_assoc.
Qed.

Lemma scan_types_earlier (pre post : keyword_table) (row : string * list string)
    (lc_text : string) :
  category_matches (snd row) lc_text ->
  exists (pre' post' : keyword_table) (row' : string * list string),
    pre ++ row :: post = pre' ++ row' :: post'
    /\ (length pre' <= length pre)%nat
    /\ scan_types (pre ++ row :: post) lc_text = Some (fst row').
Proof.
  intros Hrow. induction pre as [|[q kws] pre IH]; simpl.
  - exists [], post, row. split; [done|]. split; [done|].
    destruct row as [q kws]. simpl in *. apply any_keyword_spec in Hrow.
    by rewrite Hrow.
  - destruct (any_keyword kws lc_text) eqn:E.
    + exists [], (pre ++ row :: post), (q, kws). split; [done|]. split; [simpl; lia|done].
    + destruct IH as (pre' & post' & row' & Hsplit & Hlen & Hscan).
      exists ((q, kws) :: pre'), post', row'.
      split; [by rewrite Hsplit|]. split; [simpl; lia | done].
Qed.

(** X3. Text around a question, and its letter case, can only move the
    classification to a category declared earlier: when the lower-cased
    text [t] occurs in the lower-cased text [t'] and [t] is classified by
    some row of the taxonomy, [t'] is classified by that row or a row
    before it, and is never "Unknown". *)
Theorem classify_question_context (t t' : string) (pre post : keyword_table)
    (row : string * list string) :
  PyStr.occurs_in (PyStr.lower t) (PyStr.lower t') ->
  ordered_taxonomy = pre ++ row :: post ->
  category_matches (snd row) (PyStr.lower t) ->
  classify_question t' <> "Unknown"
  /\ exists (pre' post' : keyword_table) (row' : string * list string),
       ordered_taxonomy = pre' ++ row' :: post'
       /\ (length pre' <= length pre)%nat
       /\ classify_question t' = fst row'.
Proof.
  intros Hocc Hsplit (kw & Hin & Hkw).
  assert (Hrow : category_matches (snd row) (PyStr.lower t')).
  { exists kw. split; [done|]. by apply (occurs_in_trans kw (PyStr.lower t)). }
  destruct (scan_types_earlier pre post row (PyStr.lower t') Hrow)
    as (pre' & post' & row' & Hsplit' & Hlen & Hscan).
  rewrite <- Hsplit in Hsplit', Hscan.
  assert (Hclass : classify_question t' = fst row').
  { by rewrite classify_question_scan, Hscan. }
  split; [|by exists pre', post', row'].
  rewrite Hclass. pose proof taxonomy_labels as Hlabels.
  rewrite Forall_forall in Hlabels. apply Hlabels.
  rewrite Hsplit'. apply elem_of_app. right. apply list_elem_of_here.
Qed.

Lemma lower_append (a b : string) :
  PyStr.lower (a +:+ b) = PyStr.lower a +:+ PyStr.lower b.
Proof. induction a as [|c a IH]; [done|]. rewrite append_String. simpl. by rewrite IH. Qed.

Lemma classify_question_context_witness :
  classify_question "Which claim would WEAKEN the principle stated?" <> "Unknown".
Proof.
  apply (classify_question_context "The Principle" _
           (firstn 5 ordered_taxonomy) (skipn 6 ordered_taxonomy)
           ("Principle", ["principle"])).
  - apply contains_spec. reflexivity.
  - reflexivity.
  - apply any_keyword_spec. reflexivity.
Defined.

(** ** More on ingestion *)

Lemma lstrip_blank (s : string) : PyStr.all_space s = true -> PyStr.lstrip s = EmptyString.
Proof.
  induction s as [|c s IH]; [done|]. simpl.
  destruct (PyStr.is_space c); [exact IH | done].
Qed.

Lemma lstrip_head (s : string) :
  match PyStr.lstrip s with
  | EmptyString => PyStr.all_space s = true
  | String c _ => PyStr.is_space c = false /\ PyStr.all_space s = false
  end.
Proof.
  induction s as [|c s IH]; [done|]. simpl.
  destruct (PyStr.is_space c) eqn:E; simpl; [|by rewrite E].
  destruct (PyStr.lstrip s); [done|]. by destruct IH.
Qed.

Lemma rstrip_head (c : ascii) (s : string) :
  PyStr.is_space c = false -> PyStr.rstrip (String c s) <> EmptyString.
Proof. intros Hc. simpl. destruct (PyStr.rstrip s); [by rewrite Hc | done]. Qed.

Lemma strip_blank (s : string) :
  PyStr.strip s = EmptyString <-> PyStr.all_space s = true.
Proof.
  unfold PyStr.strip. pose proof (lstrip_head s) as Hhead.
  destruct (PyStr.lstrip s) as [|c r] eqn:E.
  - by split.
  - destruct Hhead as [Hc Hs]. split.
    + intros Hr. by apply rstrip_head in Hr.
    + congruence.
Qed.

Lemma ingest_cases (bank : list question) (flashes : list string)
    (filename text' : string) :
  ingest (bank, flashes) (filename, text')
  = if PyStr.all_space text'
    then (bank, flashes ++ ["Failed to extract text from " +:+ filename])
    else add_text bank flashes filename text'.
Proof.
  unfold ingest. pose proof (strip_blank text') as Hblank.
  destruct (PyStr.strip text') as [|c r].
  - by rewrite (proj1 Hblank eq_refl).
  - destruct (PyStr.all_space text'); [|done].
    by pose proof (proj2 Hblank eq_refl).
Qed.

(** X4. The upload loop refuses a text as a failed extraction exactly when
    the text is empty or all white space: the bank is then left as it is
    and the failure is flashed, whether or not the bank has a record with
    this text; any other text goes on to the duplicate check. *)
Theorem ingest_refuses_blank (bank : list question) (flashes : list string)
    (filename text' : string) :
  (PyStr.all_space text' = true
   <-> ingest (bank, flashes) (filename, text')
       = (bank, flashes ++ ["Failed to extract text from " +:+ filename]))
  /\ (PyStr.all_space text' = false
      <-> ingest (bank, flashes) (filename, text')
          = add_text bank flashes filename text').
Proof.
  unfold ingest. pose proof (strip_blank text') as Hblank.
  assert (Hother : add_text bank flashes filename text'
                   <> (bank, flashes ++ ["Failed to extract text from " +:+ filename])).
  { unfold add_text. destruct (negb _); intros Hmsg;
      apply (f_equal snd) in Hmsg; simpl in Hmsg;
      apply app_inv_head in Hmsg; discriminate. }
  destruct (PyStr.strip text') as [|c r].
  - rewrite (proj1 Hblank eq_refl). split; split; done.
  - destruct (PyStr.all_space text') eqn:E.
    { by pose proof (proj2 Hblank eq_refl). }
    split; split; done.
Qed.

Lemma ingest_step (state : list question * list string) (upload : string * string) :
  exists (added : list question) (message : string),
    ingest state upload = (fst state ++ added, snd state ++ [message])
    /\ (added = []
        \/ added = [{| text := snd upload; type := classify_question (snd upload);
                       source := fst upload |}]
           /\ PyStr.all_space (snd upload) = false
           /\ snd upload ∉ map text (fst state)).
Proof.
  destruct state as [bank flashes], upload as [filename t].
  rewrite ingest_cases. simpl.
  destruct (PyStr.all_space t) eqn:E.
  - exists [], ("Failed to extract text from " +:+ filename).
    rewrite app_nil_r. split; [done | by left].
  - destruct (decide (t ∈ map text bank)) as [Hin|Hnotin].
    + rewrite add_text_duplicate by done.
      exists [], ("Duplicate " +:+ filename +:+ "; skipped.").
      rewrite app_nil_r. split; [done | by left].
    + rewrite add_text_new by done. eexists _, _. split; [done|]. by right.
Qed.

(** X5. A batch of uploads only appends to the bank: the records that were
    there stay, in place and unchanged; each record added is one of the
    uploads, with its text as extracted, not blank, and the type that
    [classify_question] gives it; and every upload flashes exactly one
    message. *)
Theorem ingest_all_appends (uploads : list (string * string)) (bank : list question)
    (flashes : list string) :
  exists (added : list question) (messages : list string),
    ingest_all bank flashes uploads = (bank ++ added, flashes ++ messages)
    /\ length messages = length uploads
    /\ (length added <= length uploads)%nat
    /\ Forall (fun q => ingested q /\ (source q, text q) ∈ uploads) added.
Proof.
  unfold ingest_all. revert bank flashes.
  induction uploads as [|upload uploads IH]; intros bank flashes.
  - exists [], []. simpl. by rewrite !app_nil_r.
  - cbn [foldl].
    destruct (ingest_step (bank, flashes) upload) as (first & message & -> & Hfirst).
    cbn [fst snd].
    destruct (IH (bank ++ first) (flashes ++ [message]))
      as (added & messages & -> & Hlen & Hle & Hall).
    exists (first ++ added), (message :: messages).
    rewrite <- !app_assoc. split; [done|]. split; [simpl; lia|].
    rewrite length_app. split.
    + destruct Hfirst as [-> | (-> & _)]; simpl; lia.
    + apply Forall_app. split.
      * destruct Hfirst as [-> | (-> & Hblank & _)]; [constructor|].
        constructor; [|constructor]. split; [by split|].
        simpl. destruct upload. apply list_elem_of_here.
      * eapply Forall_impl; [exact Hall|]. intros q [Hq Hin].
        split; [done | by apply list_elem_of_further].
Qed.

Lemma ingest_texts (state : list question * list string) (upload : string * string)
    (t : string) :
  t ∈ map text (fst (ingest state upload))
  <-> t ∈ map text (fst state) \/ (PyStr.all_space t = false /\ t = snd upload).
Proof.
  destruct state as [bank flashes], upload as [filename t'].
  rewrite ingest_cases. cbn [fst snd].
  destruct (PyStr.all_space t') eqn:E; cbn [fst].
  - split; [by left|]. intros [? | [Hblank ->]]; [done | congruence].
  - destruct (decide (t' ∈ map text bank)) as [Hin|Hnotin].
    + rewrite add_text_duplicate by done. cbn [fst].
      split; [by left|]. by intros [? | [_ ->]].
    + rewrite add_text_new by done. cbn [fst].
      rewrite map_app, elem_of_app. cbn [map text]. rewrite list_elem_of_singleton.
      split.
      * intros [? | ->]; [by left | by right].
      * intros [? | [_ ->]]; [by left | by right].
Qed.

Lemma ingest_all_texts_of (uploads : list (string * string)) (bank : list question)
    (flashes : list string) (t : string) :
  t ∈ map text (fst (ingest_all bank flashes uploads))
  <-> t ∈ map text bank \/ (PyStr.all_space t = false /\ t ∈ map snd uploads).
Proof.
  unfold ingest_all. change bank with (fst (bank, flashes)) at 2.
  generalize (bank, flashes) as state.
  induction uploads as [|upload uploads IH]; intros state; cbn [foldl map].
  - split; [by left|]. intros [?|[_ Hin]]; [done | by apply elem_of_nil in Hin].
  - rewrite IH, ingest_texts, elem_of_cons. tauto.
Qed.

(** X6. Which texts the bank holds after a batch does not depend on the
    order of the uploads: they are the texts it held and the texts of the
    uploads that are not blank. *)
Theorem ingest_all_texts (uploads : list (string * string)) (bank : list question)
    (flashes : list string) (t : string) :
  (t ∈ map text (fst (ingest_all bank flashes uploads))
   <-> t ∈ map text bank \/ (PyStr.all_space t = false /\ t ∈ map snd uploads))
  /\ forall (uploads' : list (string * string)) (flashes' : list string),
       uploads ≡ₚ uploads' ->
       (t ∈ map text (fst (ingest_all bank flashes uploads))
        <-> t ∈ map text (fst (ingest_all bank flashes' uploads'))).
Proof.
  split; [apply ingest_all_texts_of|].
  intros uploads' flashes' Hperm.
  rewrite (ingest_all_texts_of uploads), (ingest_all_texts_of uploads').
  by rewrite Hperm.
Qed.

Lemma ingest_all_texts_witness :
  "What follows?"
    ∈ map text (fst (ingest_all [] [] [("a.txt", "What follows?"); ("b.txt", "  ")]))
  <-> "What follows?"
    ∈ map text (fst (ingest_all [] [] [("b.txt", "  "); ("a.txt", "What follows?")])).
Proof.
  apply (ingest_all_texts [("a.txt", "What follows?"); ("b.txt", "  ")] [] []
           "What follows?").
  apply Permutation_swap.
Defined.

Lemma ingest_known (state : list question * list string) (upload : string * string) :
  PyStr.all_space (snd upload) = true \/ snd upload ∈ map text (fst state) ->
  fst (ingest state upload) = fst state.
Proof.
  destruct state as [bank flashes], upload as [filename t]. cbn [fst snd].
  rewrite ingest_cases. intros [Hblank|Hin].
  - by rewrite Hblank.
  - destruct (PyStr.all_space t); [done|]. by rewrite add_text_duplicate.
Qed.

(** X7. Uploading a batch again adds nothing: after a batch, every upload
    of it is refused as blank or skipped as a duplicate, whatever the
    order in which the files come the second time. *)
Theorem ingest_all_again (uploads uploads' : list (string * string))
    (bank : list question) (flashes flashes' : list string) :
  uploads ≡ₚ uploads' ->
  fst (ingest_all (fst (ingest_all bank flashes uploads)) flashes' uploads')
  = fst (ingest_all bank flashes uploads).
Proof.
  intros Hperm.
  assert (Hknown : forall upload, upload ∈ uploads' ->
            PyStr.all_space (snd upload) = true
            \/ snd upload ∈ map text (fst (ingest_all bank flashes uploads))).
  { intros upload Hin. destruct (PyStr.all_space (snd upload)) eqn:E; [by left|].
    right. apply (ingest_all_texts_of uploads). right. split; [done|].
    rewrite Hperm. by apply (list_elem_of_fmap_2 snd). }
  revert Hknown. generalize (fst (ingest_all bank flashes uploads)) as known.
  unfold ingest_all. intros known. clear. revert flashes'.
  induction uploads' as [|upload uploads' IH]; intros flashes' Hknown; [done|].
  cbn [foldl].
  pose proof (ingest_known (known, flashes') upload
                (Hknown upload (list_elem_of_here _ _))) as Hsame.
  destruct (ingest (known, flashes') upload) as [known' flashes''].
  cbn [fst] in Hsame. subst known'. apply IH.
  intros upload' Hin. apply Hknown. by apply list_elem_of_further.
Qed.

Lemma classify_question_label (t : string) :
  classify_question t = "Unknown"
  \/ classify_question t ∈ map fst LR_types ++ map fst RC_types.
Proof.
  rewrite classify_question_scan.
  destruct (scan_types ordered_taxonomy (PyStr.lower t)) as [qtype|] eqn:E;
    [|by left].
  right. destruct (scan_types_Some _ _ _ E) as (pre & post & keywords & Hsplit & _).
  cbn [default from_option id]. rewrite <- map_app. fold ordered_taxonomy.
  rewrite Hsplit, map_app. apply elem_of_app. right. apply list_elem_of_here.
Qed.

(** X8. Ingestion keeps the records of the bank well formed: when every
    record has a text that is not blank and the type that
    [classify_question] gives this text, so has every record after a
    batch, and the type of every record is "Unknown" or a label of the
    taxonomy. This holds from the empty bank on. *)
Theorem ingest_all_keeps_ingested (uploads : list (string * string))
    (bank : list question) (flashes : list string) :
  Forall ingested bank ->
  Forall (fun q => ingested q
                   /\ (type q = "Unknown"
                       \/ type q ∈ map fst LR_types ++ map fst RC_types))
    (fst (ingest_all bank flashes uploads)).
Proof.
  intros Hbank. unfold ingest_all.
  assert (Hstate : Forall ingested (fst (bank, flashes))) by done.
  revert Hstate. generalize (bank, flashes) as state. clear.
  induction uploads as [|upload uploads IH]; intros state Hstate; cbn [foldl].
  - eapply Forall_impl; [exact Hstate|]. intros q [Hblank Htype].
    split; [done|]. rewrite Htype. apply classify_question_label.
  - apply IH.
    destruct (ingest_step state upload) as (added & message & -> & Hadded).
    cbn [fst]. apply Forall_app. split; [done|].
    destruct Hadded as [-> | (-> & Hblank & _)]; [constructor|].
    by repeat constructor.
Qed.

Lemma ingest_all_keeps_ingested_witness :
  Forall (fun q => type q = "Unknown"
                   \/ type q ∈ map fst LR_types ++ map fst RC_types)
    (fst (ingest_all [] [] [("a.txt", "What follows?"); ("b.txt", "Hello")])).
Proof.
  eapply Forall_impl;
    [exact (ingest_all_keeps_ingested
              [("a.txt", "What follows?"); ("b.txt", "Hello")] [] []
              (Forall_nil_2 ingested))|].
  by intros q [_ Htype].
Defined.

(** ** More on the composer *)

Section ComposerMore.
Context {G : Type} `{RandomSource G}.

Lemma section_types_labels (section : string) (types : list string) (t : string) :
  section_types section = Ok types -> t ∈ types ->
  t ∈ map fst LR_types ++ map fst RC_types /\ t <> "Unknown".
Proof.
  intros Htypes Hin.
  assert (Hlabel : t ∈ map fst LR_types ++ map fst RC_types).
  { revert Htypes. unfold section_types, QUESTION_TYPES. cbn [getitem].
    destruct (String.eqb "LR" section).
    { intros [= <-]. apply elem_of_app. by left. }
    destruct (String.eqb "RC" section); [|done].
    intros [= <-]. apply elem_of_app. by right. }
  split; [done|]. intros ->. revert Hlabel.
  apply (bool_decide_unpack _). vm_compute. exact I.
Qed.

Lemma section_run_from_bank (bank : list question) (item : string * Z)
    (chunk : list question) (warnings : list string) :
  section_run bank item chunk warnings ->
  exists types : list string,
    section_types (fst item) = Ok types
    /\ Forall (fun q => q ∈ bank /\ type q ∈ types) chunk.
Proof.
  intros (types & extra & counts & picks & Htypes & _ & Hpicks & -> & _).
  exists types. split; [done|].
  eapply Forall_impl; [exact (taken_from_pool _ counts picks Hpicks)|].
  intros q Hq. unfold eligible in Hq. by apply list_elem_of_filter in Hq as [? ?].
Qed.

(** X9. Whatever is in the exam comes from the bank and has a type of the
    taxonomy: a record of type "Unknown", or of any type that no section
    lists, is never selected. *)
Theorem compose_selects_from_bank (bank : list question)
    (structure : list (string * Z)) (w : world G) :
  well_formed structure ->
  returns (compose bank structure) w (fun exam _ =>
    Forall (fun q => q ∈ bank
                     /\ type q ∈ map fst LR_types ++ map fst RC_types
                     /\ type q <> "Unknown") exam).
Proof.
  intros Hwf.
  eapply returns_impl; [|by apply compose_spec].
  intros exam w' (chunks & warnings & Hruns & Hperm & _). rewrite Hperm.
  clear Hperm Hwf.
  induction Hruns as [|item chunk warns structure chunks warnings Hrun _ IH];
    [constructor|].
  simpl. apply Forall_app. split; [|exact IH].
  destruct (section_run_from_bank bank item chunk warns Hrun) as (types & Htypes & Hall).
  eapply Forall_impl; [exact Hall|]. intros q [Hq Hty]. split; [done|].
  by apply (section_types_labels (fst item) types).
Qed.

(** X10. With an empty bank the exam text is the empty string, for every
    structure over the sections of the taxonomy with non-negative targets:
    the composer returns normally and renders nothing. *)
Theorem empty_bank_empty_exam (structure : list (string * Z)) (w : world G) :
  well_formed structure ->
  returns (generate_exam_text [] structure) w (fun text' w' =>
    text' = EmptyString /\ exists added : list string, log w' = log w ++ added).
Proof.
  intros Hwf. unfold generate_exam_text. apply returns_bind.
  pose proof (compose_spec [] structure w Hwf) as Hrun.
  destruct Hrun as (exam & w' & Hrun & chunks & warnings & Hruns & Hperm & Hlog).
  exists exam, w'. split; [done|]. apply returns_ret.
  assert (Hnone : concat chunks = []).
  { clear -Hruns.
    induction Hruns as [|item chunk warns structure chunks warnings Hrun _ IH];
      [done|].
    simpl. rewrite IH, app_nil_r.
    destruct (section_run_from_bank [] item chunk warns Hrun) as (types & _ & Hall).
    destruct chunk as [|q chunk]; [done|].
    apply Forall_cons in Hall as [[Hq _] _]. by apply elem_of_nil in Hq. }
  rewrite Hnone in Hperm. apply Permutation_nil_r in Hperm. subst exam.
  split; [done|]. by exists (concat warnings).
Qed.

End ComposerMore.

Lemma compose_selects_from_bank_witness :
  returns (compose (LR_bank 1) DEFAULT_STRUCTURE) (scripted [4; 2]%nat)
    (fun exam _ => Forall (fun q => type q <> "Unknown") exam).
Proof.
  assert (Hwf : well_formed DEFAULT_STRUCTURE).
  { repeat constructor; simpl; auto; lia. }
  eapply returns_impl;
    [|exact (compose_selects_from_bank (LR_bank 1) DEFAULT_STRUCTURE
               (scripted [4; 2]%nat) Hwf)].
  intros exam w' Hall. eapply Forall_impl; [exact Hall|]. by intros q (_ & _ & ?).
Defined.


(** *** How often a record is selected *)

Lemma occurrences_app (q : question) (a b : list question) :
  occurrences q (a ++ b) = (occurrences q a + occurrences q b)%nat.
Proof. unfold occurrences. by rewrite filter_app, length_app. Qed.

Lemma occurrences_notin (q : question) (l : list question) :
  q ∉ l -> occurrences q l = 0%nat.
Proof.
  unfold occurrences. induction l as [|x l IH]; [done|].
  rewrite not_elem_of_cons, filter_cons. intros [Hne Hnotin].
  destruct (decide (x = q)); [congruence | by apply IH].
Qed.

Lemma occurrences_NoDup (q : question) (l : list question) :
  NoDup l -> (occurrences q l <= 1)%nat.
Proof.
  induction 1 as [|x l Hnotin Hnd IH]; [unfold occurrences; simpl; lia|].
  unfold occurrences in *. rewrite filter_cons.
  destruct (decide (x = q)) as [->|Hne]; [|exact IH].
  pose proof (occurrences_notin q l Hnotin) as Hzero. unfold occurrences in Hzero.
  simpl. lia.
Qed.

Lemma occurrences_Permutation (q : question) (a b : list question) :
  a ≡ₚ b -> occurrences q a = occurrences q b.
Proof. unfold occurrences. by intros ->. Qed.

Lemma count_type_positive (q : question) (l : list question) :
  q ∈ l -> (0 < count_type (type q) l)%nat.
Proof.
  intros Hin. unfold count_type.
  assert (Hq : q ∈ filter (fun x => type x = type q) l)
    by by apply list_elem_of_filter.
  destruct (filter (fun x => type x = type q) l); [by apply elem_of_nil in Hq|].
  simpl. lia.
Qed.

Lemma taken_NoDup (section_questions : list question) (counts : list (string * Z))
    (picks : list (list question)) :
  NoDup section_questions -> NoDup (map fst counts) ->
  Forall2 (taken_for section_questions) counts picks -> NoDup (concat picks).
Proof.
  intros Hpool Hkeys Hpicks.
  induction Hpicks as [|item picked counts picks Htaken Hrest IH]; [constructor|].
  simpl in Hkeys. apply NoDup_cons in Hkeys as [Hnotin Hkeys].
  simpl. apply NoDup_app. split; [|split; [|by apply IH]].
  - destruct Htaken as [Hsub _].
    apply (submseteq_NoDup picked _ Hsub). by apply NoDup_filter.
  - intros q Hq Hq'.
    pose proof (taken_all_of_type _ _ _ Htaken) as Hty.
    rewrite Forall_forall in Hty. specialize (Hty q Hq).
    pose proof (count_type_positive q _ Hq') as Hpos. rewrite Hty in Hpos.
    rewrite (taken_other_types section_questions _ counts picks) in Hpos by done.
    lia.
Qed.

Lemma section_run_NoDup (bank : list question) (item : string * Z)
    (chunk : list question) (warnings : list string) :
  NoDup bank -> section_run bank item chunk warnings -> NoDup chunk.
Proof.
  intros Hbank (types & extra & counts & picks & Htypes & Halloc & Hpicks & -> & _).
  destruct (section_types_known _ types Htypes) as [_ Hnd].
  apply (taken_NoDup (eligible types bank) counts picks); [|by rewrite
    (allocation_keys types _ extra counts Halloc)|done].
  by apply NoDup_filter.
Qed.

Lemma shared_label (t : string) :
  t ∈ map fst LR_types -> t ∈ map fst RC_types -> t = "Inference".
Proof.
  intros Hlr Hrc.
  repeat (apply elem_of_cons in Hlr as [-> | Hlr];
          [first [done | exfalso; revert Hrc; apply (bool_decide_unpack _);
                         vm_compute; exact I]|]).
  by apply elem_of_nil in Hlr.
Qed.

Lemma section_types_cases (section : string) (types : list string) :
  section_types section = Ok types ->
  (section = "LR" /\ types = map fst LR_types)
  \/ (section = "RC" /\ types = map fst RC_types).
Proof.
  unfold section_types, QUESTION_TYPES. cbn [getitem].
  destruct (String.eqb_spec "LR" section) as [<-|_]; [intros [= <-]; by left|].
  destruct (String.eqb_spec "RC" section) as [<-|_]; [intros [= <-]; by right|].
  done.
Qed.

Section ComposerCounts.
Context {G : Type} `{RandomSource G}.

(** X11. With a bank of distinct records and a structure that names each
    section once, no record is selected twice for one section: the exam is
    made of one chunk per section, in the order of the structure, and no
    chunk holds a record twice. So a record occurs at most twice in the
    exam, and only a record of type "Inference", the label that both
    tables have, can occur twice. *)
Theorem compose_multiplicity (bank : list question) (structure : list (string * Z))
    (w : world G) :
  NoDup bank -> NoDup (map fst structure) -> well_formed structure ->
  returns (compose bank structure) w (fun exam _ =>
    exists (chunks : list (list question)) (warnings : list (list string)),
      Forall3 (section_run bank) structure chunks warnings
      /\ exam ≡ₚ concat chunks
      /\ Forall NoDup chunks
      /\ forall q : question,
           (occurrences q exam <= 2)%nat
           /\ (type q <> "Inference" -> (occurrences q exam <= 1)%nat)).
Proof.
  intros Hbank Hkeys Hwf.
  eapply returns_impl; [|by apply compose_spec].
  intros exam w' (chunks & warnings & Hruns & Hperm & _).
  exists chunks, warnings. split; [done|]. split; [done|]. split.
  { clear Hperm Hkeys Hwf.
    induction Hruns as [|i c ws ? ? ? Hrun _ IH]; [constructor|].
    constructor; [|done]. by apply (section_run_NoDup bank i c ws). }
  intros q.
  rewrite (occurrences_Permutation q exam _ Hperm). clear Hperm.
  destruct Hruns as [|i1 c1 w1 structure chunks warnings Hrun1 Hruns].
  { simpl. split; intros; unfold occurrences; simpl; lia. }
  pose proof (occurrences_NoDup q c1 (section_run_NoDup bank i1 c1 w1 Hbank Hrun1))
    as Hc1.
  destruct Hruns as [|i2 c2 w2 structure chunks warnings Hrun2 Hruns].
  { simpl. rewrite app_nil_r. split; intros; lia. }
  pose proof (occurrences_NoDup q c2 (section_run_NoDup bank i2 c2 w2 Hbank Hrun2))
    as Hc2.
  destruct Hruns as [|i3 c3 w3 structure chunks warnings Hrun3 Hruns].
  - simpl. rewrite app_nil_r, occurrences_app. split; [lia|]. intros Hty.
    destruct (decide (q ∈ c1)) as [Hq1|Hq1];
      [|rewrite (occurrences_notin q c1 Hq1); lia].
    destruct (decide (q ∈ c2)) as [Hq2|Hq2];
      [|rewrite (occurrences_notin q c2 Hq2); lia].
    exfalso. apply Hty.
    destruct (section_run_from_bank bank i1 c1 w1 Hrun1) as (t1 & Ht1 & Hall1).
    destruct (section_run_from_bank bank i2 c2 w2 Hrun2) as (t2 & Ht2 & Hall2).
    rewrite Forall_forall in Hall1, Hall2.
    destruct (Hall1 q Hq1) as [_ Hin1], (Hall2 q Hq2) as [_ Hin2].
    simpl in Hkeys. apply NoDup_cons in Hkeys as [Hne _].
    rewrite list_elem_of_singleton in Hne.
    destruct (section_types_cases _ _ Ht1) as [[E1 ->]|[E1 ->]],
             (section_types_cases _ _ Ht2) as [[E2 ->]|[E2 ->]];
      try congruence; by apply shared_label.
  - exfalso. apply Forall_cons in Hwf as [[Hk1 _] Hwf].
    apply Forall_cons in Hwf as [[Hk2 _] Hwf].
    apply Forall_cons in Hwf as [[Hk3 _] _].
    simpl in Hkeys. apply NoDup_cons in Hkeys as [Hn1 Hkeys].
    apply NoDup_cons in Hkeys as [Hn2 _].
    apply not_elem_of_cons in Hn1 as [Hn12 Hn1].
    apply not_elem_of_cons in Hn1 as [Hn13 _].
    apply not_elem_of_cons in Hn2 as [Hn23 _].
    destruct Hk1 as [E1|E1], Hk2 as [E2|E2], Hk3 as [E3|E3]; congruence.
Qed.

Lemma no_short_no_warnings (section_questions : list question)
    (counts : list (string * Z)) :
  Forall (fun item => ~ short section_questions item) counts ->
  shortage_warnings section_questions counts = [].
Proof.
  unfold shortage_warnings. induction 1 as [|item counts Hitem _ IH]; [done|].
  simpl. rewrite IH. unfold short in Hitem.
  by destruct (Z.ltb_spec
    (Z.of_nat (length (candidates_of section_questions (fst item)))) (snd item)).
Qed.

Lemma section_run_full (bank : list question) (item : string * Z)
    (chunk : list question) (warnings : list string) :
  (forall types, section_types (fst item) = Ok types ->
     forall t, t ∈ types ->
       snd item / Z.of_nat (length types) + 1 <= Z.of_nat (count_type t bank)) ->
  section_run bank item chunk warnings ->
  Z.of_nat (length chunk) = snd item /\ warnings = [].
Proof.
  intros Henough (types & extra & counts & picks & Htypes & Halloc & Hpicks & -> & ->).
  destruct (section_types_known _ types Htypes) as [Hne Hnd].
  pose proof (allocation_total types _ extra counts Hne Hnd Halloc) as Hsum.
  assert (Hno : Forall (fun it => ~ short (eligible types bank) it) counts).
  { destruct Halloc as (_ & _ & _ & ->). apply Forall_forall. intros it Hin.
    apply list_elem_of_fmap in Hin as (t & -> & Hin). unfold short. cbn [fst snd].
    rewrite candidates_eligible by done.
    specialize (Henough types Htypes t Hin). destruct (decide (t ∈ extra)); lia. }
  split; [|by apply no_short_no_warnings].
  destruct (taken_length _ counts picks Hpicks) as [Hle Hlt]. rewrite Hsum in Hle, Hlt.
  destruct (Z.lt_ge_cases (Z.of_nat (length (concat picks))) (snd item))
    as [Hless|]; [|lia].
  apply Hlt, Exists_exists in Hless as (it & Hin & Hshort).
  rewrite Forall_forall in Hno. by destruct (Hno it Hin).
Qed.

(** X12. When every category of every section has one record more than
    the base count of the section, the exam is full: it has as many
    questions as the structure asks for in all, and nothing is logged,
    whichever categories the draws give the extra slots to. *)
Theorem compose_full_exam (bank : list question) (structure : list (string * Z))
    (w : world G) :
  well_formed structure -> enough_for bank structure ->
  returns (compose bank structure) w (fun exam w' =>
    Z.of_nat (length exam) = total_slots structure /\ log w' = log w).
Proof.
  intros Hwf Henough.
  eapply returns_impl; [|by apply compose_spec].
  intros exam w' (chunks & warnings & Hruns & Hperm & Hlog).
  rewrite (Permutation_length Hperm), Hlog. clear Hperm Hlog Hwf.
  assert (Hfull : Z.of_nat (length (concat chunks)) = total_slots structure
                  /\ concat warnings = []).
  { unfold enough_for in Henough.
    induction Hruns as [|item chunk warns structure chunks warnings Hrun _ IH];
      [done|].
    apply Forall_cons in Henough as [Hitem Hrest].
    destruct (section_run_full bank item chunk warns Hitem Hrun) as [Hlen ->].
    destruct (IH Hrest) as [Hlens Hwarns].
    unfold total_slots in *. simpl. rewrite length_app, Nat2Z.inj_add.
    split; [lia | done]. }
  destruct Hfull as [Hlen ->]. by rewrite app_nil_r.
Qed.

Lemma section_run_count (bank : list question) (item : string * Z)
    (chunk : list question) (warnings : list string) (types : list string)
    (t : string) :
  section_run bank item chunk warnings ->
  section_types (fst item) = Ok types -> t ∈ types ->
  Z.min (snd item / Z.of_nat (length types)) (Z.of_nat (count_type t bank))
  <= Z.of_nat (count_type t chunk)
  <= Z.min (snd item / Z.of_nat (length types) + 1) (Z.of_nat (count_type t bank)).
Proof.
  intros (types' & extra & counts & picks & Htypes' & Halloc & Hpicks & -> & _)
         Htypes Hin.
  rewrite Htypes in Htypes'. injection Htypes' as <-.
  destruct (section_types_known _ types Htypes) as [Hne Hnd].
  pose proof (allocation_keys types _ extra counts Halloc) as Hkeys.
  destruct Halloc as (_ & _ & _ & Hcounts).
  set (cnt := if decide (t ∈ extra)
              then snd item / Z.of_nat (length types) + 1
              else snd item / Z.of_nat (length types)).
  assert (Hitem : (t, cnt) ∈ counts).
  { rewrite Hcounts. apply list_elem_of_fmap. by exists t. }
  assert (Hndk : NoDup (map fst counts)) by by rewrite Hkeys.
  pose proof (taken_count_type _ counts picks _ Hpicks Hndk Hitem) as Hc.
  cbn [fst snd] in Hc. rewrite candidates_eligible in Hc by done.
  subst cnt. destruct (decide (t ∈ extra)); lia.
Qed.

(** X13. Every category gets its share: a category of a section of the
    structure has in the exam at least the base count of the section, or
    all its records when the bank has fewer. *)
Theorem compose_serves_every_category (bank : list question)
    (structure : list (string * Z)) (w : world G) :
  well_formed structure ->
  returns (compose bank structure) w (fun exam _ =>
    forall (item : string * Z) (types : list string) (t : string),
      item ∈ structure -> section_types (fst item) = Ok types -> t ∈ types ->
      Z.min (snd item / Z.of_nat (length types)) (Z.of_nat (count_type t bank))
      <= Z.of_nat (count_type t exam)).
Proof.
  intros Hwf.
  eapply returns_impl; [|by apply compose_spec].
  intros exam w' (chunks & warnings & Hruns & Hperm & _) item types t Hitem Htypes Hin.
  rewrite (count_type_Permutation t exam _ Hperm). clear Hperm Hwf.
  induction Hruns as [|item' chunk warns structure chunks warnings Hrun _ IH].
  { by apply elem_of_nil in Hitem. }
  simpl. rewrite count_type_app.
  apply elem_of_cons in Hitem as [<- | Hitem].
  - pose proof (section_run_count bank item chunk warns types t Hrun Htypes Hin). lia.
  - specialize (IH Hitem). lia.
Qed.

(** X14. The exam route composes with the default structure, which is well
    formed: for every bank and every state of the generator it returns a
    text, of at most 52 questions, in which every category that has a
    record in the bank has at least one question. *)
Theorem exam_always_answers (bank : list question) (w : world G) :
  returns (exam bank) w (fun _ _ => True)
  /\ returns (compose bank DEFAULT_STRUCTURE) w (fun selected _ =>
       (length selected <= 52)%nat
       /\ forall t : string,
            t ∈ map fst LR_types ++ map fst RC_types ->
            (1 <= count_type t bank)%nat -> (1 <= count_type t selected)%nat).
Proof.
  assert (Hwf : well_formed DEFAULT_STRUCTURE).
  { repeat constructor; simpl; auto; lia. }
  pose proof (compose_spec bank DEFAULT_STRUCTURE w Hwf) as Hcompose.
  split.
  { unfold exam, generate_exam_text. apply returns_bind.
    eapply returns_impl; [|exact Hcompose]. intros selected w' _. by apply returns_ret. }
  eapply returns_impl; [|exact Hcompose].
  intros selected w' (chunks & warnings & Hruns & Hperm & _).
  inversion Hruns as [|i1 c1 w1 r1 cs1 ws1 Hrun1 Hruns1]; subst.
  inversion Hruns1 as [|i2 c2 w2 r2 cs2 ws2 Hrun2 Hruns2]; subst.
  inversion Hruns2; subst. simpl in Hperm. rewrite app_nil_r in Hperm.
  split.
  - rewrite (Permutation_length Hperm), length_app.
    destruct (section_run_length bank _ c1 w1 Hrun1) as [Hl1 _].
    destruct (section_run_length bank _ c2 w2 Hrun2) as [Hl2 _].
    simpl in Hl1, Hl2. lia.
  - intros t Ht Hbank. rewrite (count_type_Permutation t selected _ Hperm).
    rewrite count_type_app. apply elem_of_app in Ht as [Hlr|Hrc].
    + pose proof (section_run_count bank _ c1 w1 (map fst LR_types) t Hrun1
                    eq_refl Hlr) as Hc.
      change (snd ("LR", 25) / Z.of_nat (length (map fst LR_types))) with 2 in Hc.
      lia.
    + pose proof (section_run_count bank _ c2 w2 (map fst RC_types) t Hrun2
                    eq_refl Hrc) as Hc.
      change (snd ("RC", 27) / Z.of_nat (length (map fst RC_types))) with 3 in Hc.
      lia.
Qed.

End ComposerCounts.

(** ** The upload route *)

Section UploadProperties.
Variable secure_filename : string -> string.
Variable path_suffix : string -> string.

Lemma handle_files_app (pre rest : list upload) (state : list question * list string) :
  all_extract secure_filename path_suffix pre ->
  handle_files secure_filename path_suffix state (pre ++ rest)
  = handle_files secure_filename path_suffix
      (foldl ingest state (extracted secure_filename path_suffix pre)) rest.
Proof.
  intros Hpre. revert state.
  induction Hpre as [|u pre Hu _ IH]; intros state; [done|].
  cbn [app handle_files extracted]. unfold handle_file.
  destruct (allowed_file (up_filename u)); [|apply IH].
  destruct (Hu eq_refl) as [text' ->]. cbn [foldl]. apply IH.
Qed.

Lemma index_post_nonempty (files : list upload) (a : app_state) :
  files <> [] ->
  index_post secure_filename path_suffix files a
  = match handle_files secure_filename path_suffix (app_bank a, app_flashes a) files with
    | (Ok _, (bank, flashes)) =>
        (Ok tt, {| app_bank := bank; app_store := save_bank bank;
                   app_flashes := flashes |})
    | (Raise e, (bank, flashes)) =>
        (Raise e, {| app_bank := bank; app_store := app_store a;
                     app_flashes := flashes |})
    end.
Proof. by destruct files. Qed.

(** X15. When every allowed file of a request gives a text, the request
    ingests these texts in the order of the files, under their secured
    names, and then writes the store: the files that [allowed_file]
    refuses are passed over without a message, and a start-up after the
    request loads the very bank that is in memory. *)
Theorem index_post_persists {G : Type} `{RandomSource G} `{Interpreter}
    (files : list upload) (a : app_state) (w : world G) :
  files <> [] -> all_extract secure_filename path_suffix files ->
  let after := ingest_all (app_bank a) (app_flashes a)
                 (extracted secure_filename path_suffix files) in
  index_post secure_filename path_suffix files a
  = (Ok tt, {| app_bank := fst after; app_store := save_bank (fst after);
               app_flashes := snd after |})
  /\ exists v : Json.value,
       load_bank (save_bank (fst after)) w = (Ok v, w)
       /\ Json.records_of v = Some (fst after).
Proof.
  intros Hfiles Hall after. split.
  - rewrite index_post_nonempty by done.
    rewrite <- (app_nil_r files) at 1. rewrite handle_files_app by done.
    cbn [handle_files]. subst after. unfold ingest_all.
    by destruct (foldl ingest (app_bank a, app_flashes a)
                   (extracted secure_filename path_suffix files)).
  - exists (Json.bank_value (fst after)). split; [|apply records_of_bank_value].
    unfold load_bank, save_bank. by rewrite loads_dumps.
Qed.

(** X16. An exception while the text of a file is extracted ends the
    request at that file: the records of the files before it are in the
    bank in memory, the store is not written, and the files after it are
    not looked at. *)
Theorem index_post_aborts (pre post : list upload) (u : upload) (e : exn)
    (a : app_state) :
  all_extract secure_filename path_suffix pre ->
  allowed_file (up_filename u) = true ->
  extracted_text path_suffix u (secure_filename (up_filename u)) = Raise e ->
  let before := ingest_all (app_bank a) (app_flashes a)
                  (extracted secure_filename path_suffix pre) in
  index_post secure_filename path_suffix (pre ++ u :: post) a
  = (Raise e, {| app_bank := fst before; app_store := app_store a;
                 app_flashes := snd before |}).
Proof.
  intros Hpre Hallowed Hraise before.
  rewrite index_post_nonempty by (by destruct pre).
  rewrite handle_files_app by done.
  cbn [handle_files]. unfold handle_file. rewrite Hallowed, Hraise.
  subst before. unfold ingest_all.
  by destruct (foldl ingest (app_bank a, app_flashes a)
                 (extracted secure_filename path_suffix pre)).
Qed.

(** X17. A request whose files all have names that [allowed_file] refuses
    changes neither the bank nor the messages: nothing tells the user that
    a file was left out. Only a request without any file flashes "No files
    selected", and that request does not write the store. *)
Theorem index_post_unsupported (files : list upload) (a : app_state) :
  Forall (fun u => allowed_file (up_filename u) = false) files ->
  index_post secure_filename path_suffix files a
  = (Ok tt,
     {| app_bank := app_bank a;
        app_store := match files with
                     | [] => app_store a
                     | _ :: _ => save_bank (app_bank a)
                     end;
        app_flashes := match files with
                       | [] => app_flashes a ++ ["No files selected"]
                       | _ :: _ => app_flashes a
                       end |}).
Proof.
  intros Hnone. destruct files as [|u files]; [done|].
  rewrite index_post_nonempty by done.
  assert (Hskip : forall state,
            handle_files secure_filename path_suffix state (u :: files) = (Ok tt, state)).
  { revert Hnone. generalize (u :: files) as fs. clear.
    induction 1 as [|f fs Hf _ IH]; intros state; [done|].
    cbn [handle_files]. unfold handle_file. by rewrite Hf. }
  by rewrite Hskip.
Qed.

End UploadProperties.

(** ** Start-up *)


(** ** The further properties on concrete inputs *)

Lemma ingest_all_again_witness :
  fst (ingest_all
         (fst (ingest_all [] [] [("a.txt", "What follows?"); ("b.txt", "Why?")]))
         [] [("b.txt", "Why?"); ("a.txt", "What follows?")])
  = fst (ingest_all [] [] [("a.txt", "What follows?"); ("b.txt", "Why?")]).
Proof.
  apply (ingest_all_again [("a.txt", "What follows?"); ("b.txt", "Why?")]
           [("b.txt", "Why?"); ("a.txt", "What follows?")] [] [] []).
  apply Permutation_swap.
Defined.

Lemma well_formed_default : well_formed DEFAULT_STRUCTURE.
Proof. repeat constructor; simpl; auto; lia. Qed.

Lemma empty_bank_empty_exam_witness :
  returns (generate_exam_text [] DEFAULT_STRUCTURE) (scripted [6; 1]%nat)
    (fun text' _ => text' = EmptyString).
Proof.
  eapply returns_impl;
    [|exact (empty_bank_empty_exam DEFAULT_STRUCTURE (scripted [6; 1]%nat)
               well_formed_default)].
  by intros text' w' [-> _].
Defined.

Lemma NoDup_full_bank : NoDup full_bank.
Proof. apply (bool_decide_unpack _). vm_compute. exact I. Qed.

Lemma compose_multiplicity_witness :
  returns (compose full_bank DEFAULT_STRUCTURE) (scripted [3; 5; 8]%nat)
    (fun selected _ => (occurrences (sample_record "Flaw" 2) selected <= 1)%nat).
Proof.
  eapply returns_impl;
    [|apply (compose_multiplicity full_bank DEFAULT_STRUCTURE (scripted [3; 5; 8]%nat)
               NoDup_full_bank);
      [apply (bool_decide_unpack _); vm_compute; exact I
      | exact well_formed_default]].
  intros selected w' (chunks & warnings & _ & _ & _ & Hall).
  by apply (Hall (sample_record "Flaw" 2)).
Defined.

Lemma enough_full_bank : enough_for full_bank DEFAULT_STRUCTURE.
Proof.
  repeat constructor; cbn [fst snd]; intros types [= <-] t Ht;
    repeat (apply elem_of_cons in Ht as [-> | Ht]; [vm_compute; discriminate|]);
    by apply elem_of_nil in Ht.
Qed.

Lemma compose_full_exam_witness :
  returns (compose full_bank DEFAULT_STRUCTURE) (scripted [1; 1; 2; 3; 5]%nat)
    (fun selected w' => length selected = 52%nat /\ log w' = []).
Proof.
  eapply returns_impl;
    [|exact (compose_full_exam full_bank DEFAULT_STRUCTURE
               (scripted [1; 1; 2; 3; 5]%nat) well_formed_default enough_full_bank)].
  intros selected w' [Hlen Hlog]. split; [|exact Hlog].
  change (total_slots DEFAULT_STRUCTURE) with 52 in Hlen. lia.
Defined.

Lemma compose_serves_every_category_witness :
  returns (compose (LR_bank 1) [("LR", 9)]) (scripted [2]%nat)
    (fun selected _ => (1 <= count_type "Paradox" selected)%nat).
Proof.
  assert (Hwf : well_formed [("LR", 9)]).
  { repeat constructor; simpl; auto; lia. }
  eapply returns_impl;
    [|exact (compose_serves_every_category (LR_bank 1) [("LR", 9)]
               (scripted [2]%nat) Hwf)].
  intros selected w' Hall.
  pose proof (Hall ("LR", 9) (map fst LR_types) "Paradox"
                (list_elem_of_here _ _) eq_refl) as Hc.
  assert (Hin : "Paradox" ∈ map fst LR_types).
  { apply (bool_decide_unpack _). vm_compute. exact I. }
  specialize (Hc Hin).
  change (snd ("LR", 9) / Z.of_nat (length (map fst LR_types))) with 1 in Hc.
  change (Z.of_nat (count_type "Paradox" (LR_bank 1))) with 1 in Hc.
  lia.
Defined.


(** A request and the start-up after it, under [cpython_defaults]. *)
Section UploadExamples.
#[local] Existing Instance cpython_defaults.

Lemma index_post_persists_witness :
  fst (index_post plain_name last_suffix
         [text_upload "q1.txt" "What follows?"; text_upload "notes.doc" "Hello"]
         {| app_bank := []; app_store := Absent; app_flashes := [] |})
  = Ok tt.
Proof.
  destruct (index_post_persists plain_name last_suffix
              [text_upload "q1.txt" "What follows?"; text_upload "notes.doc" "Hello"]
              {| app_bank := []; app_store := Absent; app_flashes := [] |}
              (scripted []%nat)) as [Hrun _].
  - done.
  - repeat constructor; intros Hallowed; by eexists.
  - by rewrite Hrun.
Defined.

End UploadExamples.

Lemma index_post_aborts_witness :
  index_post plain_name last_suffix
    [text_upload "q1.txt" "What follows?"; broken_upload "q2.txt";
     text_upload "q3.txt" "Why?"]
    {| app_bank := []; app_store := Absent; app_flashes := [] |}
  = (Raise UnicodeDecodeError,
     {| app_bank := [{| text := "What follows?"; type := "Inference";
                        source := "q1.txt" |}];
        app_store := Absent;
        app_flashes := ["Ingested q1.txt as Inference"] |}).
Proof.
  apply (index_post_aborts plain_name last_suffix
           [text_upload "q1.txt" "What follows?"] [text_upload "q3.txt" "Why?"]
           (broken_upload "q2.txt") UnicodeDecodeError
           {| app_bank := []; app_store := Absent; app_flashes := [] |}).
  - repeat constructor; intros Hallowed; by eexists.
  - reflexivity.
  - reflexivity.
Defined.

Lemma index_post_unsupported_witness :
  index_post plain_name last_suffix [text_upload "notes.doc" "What follows?"]
    {| app_bank := []; app_store := Absent; app_flashes := [] |}
  = (Ok tt, {| app_bank := []; app_store := save_bank []; app_flashes := [] |}).
Proof.
  apply (index_post_unsupported plain_name last_suffix
           [text_upload "notes.doc" "What follows?"]).
  by repeat constructor.
Defined.
